(** * Local passcode settings screens (settings_local_passcode.cpp)

    A shallow embedding of the event handlers of the local passcode
    settings section: the click handler of the enter screen (create,
    check and change), the disable button of the manage screen, the
    auto-lock label and the auto-close timer, then the enter screen as a
    state machine under user actions, and the divider of the manage screen
    with the geometry of its bottom filler.

    The handlers run on the UI thread and talk to collaborators that live
    outside the file (the storage domain, the application object, the
    global settings).  They are embedded in a small state-and-log monad:
    the state is the part of the external world the handlers read or
    write, the log records every external call and every widget call in
    program order. *)

From Stdlib Require Import ZArith List Bool Lia.
From Stdlib.Strings Require Import Byte.
Import ListNotations.
Local Open Scope Z_scope.

(** ** Qt value types *)

(** A [QString] is a sequence of UTF-16 code units. *)
Definition QChar := N.
Definition QString := list QChar.
Definition QByteArray := list byte.

(** [crl::time]: milliseconds. *)
Definition time := Z.

(** [QString::isEmpty]. *)
Definition isEmpty (s : QString) : bool :=
  match s with
  | [] => true
  | _ :: _ => false
  end.

(** [operator==] on [QString]: the same code units in the same order. *)
Fixpoint QString_eqb (a b : QString) : bool :=
  match a, b with
  | [], [] => true
  | x :: a', y :: b' => N.eqb x y && QString_eqb a' b'
  | _, _ => false
  end.

(** ** Fixed-width integers *)

(** [int] and [int32] are 32 bits wide, two's complement.  A sum or
    difference that leaves the range wraps around; the theorems that
    depend on the arithmetic carry the range in which it does not. *)
Definition int32_min : Z := -2147483648.
Definition int32_max : Z := 2147483647.

Definition int32_wrap (z : Z) : Z :=
  (z + 2147483648) mod 4294967296 - 2147483648.

Definition int32_add (a b : Z) : Z := int32_wrap (a + b).
Definition int32_sub (a b : Z) : Z := int32_wrap (a - b).

Definition in_int32 (z : Z) : Prop := int32_min <= z <= int32_max.

(** ** Constants of the anonymous namespace *)

Definition kTimerCheck : time := 1000 * 60.
Definition kAutoCloseTimeout : time := 1000 * 60 * 10.

(** ** The external world *)

(** The state outside the file that the handlers reach.  [domain] is the
    local storage of the session's domain, [app] the application object's
    own lock bookkeeping, [PasscodeBadTries] and [PasscodeLastTry] the two
    global settings behind [cPasscodeBadTries] and [cPasscodeLastTry],
    [now] the reading of [crl::now()], [lastNonIdleTime] and [autoLock]
    what the application and its settings report.

    The bad-try count is an [int32] setting (declared in the settings
    header, which is not part of this file): the [+ 1] of the
    wrong-passcode branch is [int32_add].  The timestamps are [crl::time]
    values, 64 bits of milliseconds. *)
Record Globals {D A : Type} : Type := mkGlobals {
  domain : D;
  app : A;
  PasscodeBadTries : Z;
  PasscodeLastTry : time;
  now : time;
  lastNonIdleTime : time;
  autoLock : Z
}.
Arguments Globals : clear implicits.
Arguments mkGlobals {D A}.

(** The collaborators, as an interface.  Each one writes only its own
    component of the world: [setPasscode] the domain, [localPasscodeChanged]
    the application object (it may read everything). *)
Class Externals : Type := {
  Domain : Type;
  App : Type;
  toUtf8 : QString -> QByteArray;
  checkPasscode : Domain -> QByteArray -> bool;
  setPasscode : QByteArray -> Domain -> Domain;
  localPasscodeChanged : Globals Domain App -> App;
  passcodeCanTry : Globals Domain App -> bool;
  LastUserInputTimeSupported : bool
}.

(** ** Events *)

Inductive EnterType : Type := Create | Check | Change.

Inductive Field : Type := newPasscode | reenterPasscode.

(** The phrases the handlers put on the error label. *)
Inductive Phrase : Type :=
| lng_passcode_differ
| lng_passcode_is_same
| lng_flood_error
| lng_passcode_wrong.

Inductive Id : Type :=
| LocalPasscodeManage_Id
| LocalPasscodeCreate_Id
| LocalPasscodeCheck_Id
| LocalPasscodeChange_Id.

(** The boxes the manage screen asks the window controller to show. *)
Inductive BoxKind : Type := AutoLockBox | DisableConfirmBox.

(** Calls that leave the file for application state. *)
Inductive ExtCall : Type :=
| cSetPasscodeBadTries (n : Z)
| cPasscodeBadTries
| cSetPasscodeLastTry (t : time)
| call_passcodeCanTry (r : bool)
| crl_now
| App_lastNonIdleTime
| App_localPasscodeChanged
| settings_autoLock
| local_setPasscode (pass : QByteArray)
| local_checkPasscode (pass : QByteArray) (r : bool)
| Platform_LastUserInputTimeSupported (r : bool)
| controller_show (box : BoxKind).

(** Calls on the widgets and event streams of the screen. *)
Inductive UiCall : Type :=
| setFocus (f : Field)
| showError (f : Field)
| selectAll (f : Field)
| error_show
| error_setText (p : Phrase)
| showOther_fire (id : Id)
| showBack_fire
| box_close.

Inductive Event : Type :=
| Ext (c : ExtCall)
| Ui (c : UiCall).

Definition enterType_eqb (a b : EnterType) : bool :=
  match a, b with
  | Create, Create | Check, Check | Change, Change => true
  | _, _ => false
  end.

Section Handlers.

Context {E : Externals}.

Definition World : Type := Globals Domain App.

(** ** The handler monad: state passing with a call log *)

Definition M (R : Type) : Type := World -> R * World * list Event.

Definition ret {R} (r : R) : M R := fun g => (r, g, []).

Definition bind {R S} (m : M R) (k : R -> M S) : M S :=
  fun g =>
    let '(r, g1, l1) := m g in
    let '(s, g2, l2) := k r g1 in
    (s, g2, l1 ++ l2).

Definition result_of {R} (x : R * World * list Event) : R := fst (fst x).
Definition world_of {R} (x : R * World * list Event) : World := snd (fst x).
Definition trace_of {R} (x : R * World * list Event) : list Event := snd x.

Notation "x <- m ;; k" := (bind m (fun x => k))
  (at level 61, m at next level, right associativity).
Notation "m ;; k" := (bind m (fun _ => k))
  (at level 61, right associativity).

Definition ui (c : UiCall) : M unit := fun g => (tt, g, [Ui c]).

(** *** External calls *)

Definition set_PasscodeBadTries (n : Z) : M unit := fun g =>
  (tt,
   mkGlobals (domain g) (app g) n (PasscodeLastTry g)
             (now g) (lastNonIdleTime g) (autoLock g),
   [Ext (cSetPasscodeBadTries n)]).

Definition get_PasscodeBadTries : M Z := fun g =>
  (PasscodeBadTries g, g, [Ext cPasscodeBadTries]).

Definition set_PasscodeLastTry (t : time) : M unit := fun g =>
  (tt,
   mkGlobals (domain g) (app g) (PasscodeBadTries g) t
             (now g) (lastNonIdleTime g) (autoLock g),
   [Ext (cSetPasscodeLastTry t)]).

Definition get_passcodeCanTry : M bool := fun g =>
  (passcodeCanTry g, g, [Ext (call_passcodeCanTry (passcodeCanTry g))]).

Definition get_now : M time := fun g => (now g, g, [Ext crl_now]).

Definition get_lastNonIdleTime : M time := fun g =>
  (lastNonIdleTime g, g, [Ext App_lastNonIdleTime]).

Definition get_autoLock : M Z := fun g =>
  (autoLock g, g, [Ext settings_autoLock]).

Definition do_setPasscode (pass : QByteArray) : M unit := fun g =>
  (tt,
   mkGlobals (setPasscode pass (domain g)) (app g) (PasscodeBadTries g)
             (PasscodeLastTry g) (now g) (lastNonIdleTime g) (autoLock g),
   [Ext (local_setPasscode pass)]).

Definition do_checkPasscode (pass : QByteArray) : M bool := fun g =>
  (checkPasscode (domain g) pass, g,
   [Ext (local_checkPasscode pass (checkPasscode (domain g) pass))]).

Definition do_localPasscodeChanged : M unit := fun g =>
  (tt,
   mkGlobals (domain g) (localPasscodeChanged g) (PasscodeBadTries g)
             (PasscodeLastTry g) (now g) (lastNonIdleTime g) (autoLock g),
   [Ext App_localPasscodeChanged]).

(** ** The functions of the file *)

(** [SetPasscode(controller, pass)]. *)
Definition SetPasscode (pass : QString) : M unit :=
  set_PasscodeBadTries 0 ;;
  do_setPasscode (toUtf8 pass) ;;
  do_localPasscodeChanged.

(** A [base::Timer] as this file sets it up: the body it runs and the
    period handed to [callEach]. *)
Record Timer : Type := mkTimer {
  timer_body : M unit;
  timer_each : time
}.

(** [SetupAutoCloseTimer(lifetime, callback)]. *)
Definition SetupAutoCloseTimer (callback : M unit) : Timer :=
  mkTimer
    (t <- get_now ;;
     last <- get_lastNonIdleTime ;;
     let idle := t - last in
     if idle >=? kAutoCloseTimeout then callback else ret tt)
    kTimerCheck.

(** The callback both screens hand to [SetupAutoCloseTimer]. *)
Definition autoClose_callback : M unit := ui showBack_fire.

(** The clicked callback of the main button of [LocalPasscodeEnter].
    [newInput] and [reenterInput] are what the user typed; the second
    field exists unless the screen is in Check mode, where
    [reenterPasscode] is null and [reenterText] is the empty [QString()]. *)
Definition clicked (ty : EnterType) (newInput reenterInput : QString) : M unit :=
  let isCreate := enterType_eqb ty Create in
  let isCheck := enterType_eqb ty Check in
  let isChange := enterType_eqb ty Change in
  let newText := newInput in
  let reenterText := if isCheck then [] else reenterInput in
  if isCreate || isChange then
    if isEmpty newText then
      ui (setFocus newPasscode) ;;
      ui (showError newPasscode)
    else if isEmpty reenterText then
      ui (setFocus reenterPasscode) ;;
      ui (showError reenterPasscode)
    else if negb (QString_eqb newText reenterText) then
      ui (setFocus reenterPasscode) ;;
      ui (showError reenterPasscode) ;;
      ui (selectAll reenterPasscode) ;;
      ui error_show ;;
      ui (error_setText lng_passcode_differ)
    else
      let proceed : M unit :=
        SetPasscode newText ;;
        if isCreate then ui (showOther_fire LocalPasscodeManage_Id)
        else if isChange then ui showBack_fire
        else ret tt in
      if isChange then
        same <- do_checkPasscode (toUtf8 newText) ;;
        if same then
          ui (setFocus newPasscode) ;;
          ui (showError newPasscode) ;;
          ui (selectAll newPasscode) ;;
          ui error_show ;;
          ui (error_setText lng_passcode_is_same)
        else proceed
      else proceed
  else if isCheck then
    can <- get_passcodeCanTry ;;
    if negb can then
      ui (setFocus newPasscode) ;;
      ui (showError newPasscode) ;;
      ui error_show ;;
      ui (error_setText lng_flood_error)
    else
      ok <- do_checkPasscode (toUtf8 newText) ;;
      if ok then
        set_PasscodeBadTries 0 ;;
        ui (showOther_fire LocalPasscodeManage_Id)
      else
        tries <- get_PasscodeBadTries ;;
        set_PasscodeBadTries (int32_add tries 1) ;;
        t <- get_now ;;
        set_PasscodeLastTry t ;;
        ui (selectAll newPasscode) ;;
        ui (setFocus newPasscode) ;;
        ui (showError newPasscode) ;;
        ui error_show ;;
        ui (error_setText lng_passcode_wrong)
  else ret tt.

(** The [submit] handler of the two fields: Enter in the last field
    clicks the button, Enter in the first of two fields moves the focus to
    the second. *)
Definition submit (ty : EnterType) (reenterHasFocus : bool)
    (newInput reenterInput : QString) : M unit :=
  let isCheck := enterType_eqb ty Check in
  if isCheck || reenterHasFocus
  then clicked ty newInput reenterInput
  else ui (setFocus reenterPasscode).

(** The auto-close timer of [LocalPasscodeEnter::setupContent]: only the
    Change screen has one. *)
Definition enter_autoCloseTimer (ty : EnterType) : option Timer :=
  if enterType_eqb ty Change
  then Some (SetupAutoCloseTimer autoClose_callback)
  else None.

(** The auto-close timer of [LocalPasscodeManage::setupContent]. *)
Definition manage_autoCloseTimer : Timer :=
  SetupAutoCloseTimer autoClose_callback.

(** [LocalPasscodeManage::removeFromStack]. *)
Definition removeFromStack : list Id :=
  [LocalPasscodeManage_Id; LocalPasscodeCreate_Id; LocalPasscodeCheck_Id;
   LocalPasscodeChange_Id].

(** The click handler of the change button of [LocalPasscodeManage]. *)
Definition change_clicked : M unit :=
  ui (showOther_fire LocalPasscodeChange_Id).

(** The label of the auto-lock button of [LocalPasscodeManage]. *)
Inductive AutolockLabel : Type :=
| lng_passcode_autolock_hours_minutes (hours minutes : Z)
| lng_minutes (count : Z)
| lng_hours (count : Z).

(** C++ [/] on integers truncates toward zero: [Z.quot]. *)
Definition autolock_hours (autolock : Z) : Z := Z.quot autolock 3600.
Definition autolock_minutes (autolock : Z) : Z :=
  Z.quot (autolock - autolock_hours autolock * 3600) 60.

Definition nonzero (z : Z) : bool := negb (z =? 0).

Definition autolockLabel_of (autolock : Z) : AutolockLabel :=
  let hours := autolock_hours autolock in
  let minutes := autolock_minutes autolock in
  if nonzero hours && nonzero minutes
  then lng_passcode_autolock_hours_minutes hours minutes
  else if nonzero minutes
  then lng_minutes minutes
  else lng_hours hours.

Definition autolockLabel : M AutolockLabel :=
  autolock <- get_autoLock ;;
  ret (autolockLabel_of autolock).

(** The confirmation box the disable button of [LocalPasscodeManage]
    shows: nothing happens until the user confirms, then [box_confirmed]
    runs. *)
Record ConfirmBox : Type := mkConfirmBox {
  box_confirmed : M unit
}.

Definition disable_clicked : ConfirmBox :=
  mkConfirmBox
    (SetPasscode [] ;;
     ui box_close ;;
     ui showBack_fire).

Definition do_controller_show (box : BoxKind) : M unit := fun g =>
  (tt, g, [Ext (controller_show box)]).

(** The click handler of the disable button: the controller is asked to
    show the confirmation box (line 440). *)
Definition disable_button_clicked : M ConfirmBox :=
  do_controller_show DisableConfirmBox ;;
  ret disable_clicked.

(** The click handler of the auto-lock button (lines 394-398): the
    controller is asked to show the auto-lock box; when the box closes the
    label is computed anew. *)
Definition autolock_button_clicked : M unit :=
  do_controller_show AutoLockBox.

Definition autoLockBox_closing : M AutolockLabel := autolockLabel.

(** The title of the auto-lock button (lines 388-390). *)
Inductive AutolockTitle : Type :=
| lng_passcode_autolock_away
| lng_passcode_autolock_inactive.

Definition autolock_button_title : M AutolockTitle := fun g =>
  (if LastUserInputTimeSupported
   then lng_passcode_autolock_away
   else lng_passcode_autolock_inactive,
   g,
   [Ext (Platform_LastUserInputTimeSupported LastUserInputTimeSupported)]).

End Handlers.

(** ** Reading a call log *)

(** The external calls of a log, in order. *)
Fixpoint ext_calls (l : list Event) : list ExtCall :=
  match l with
  | [] => []
  | Ext c :: l' => c :: ext_calls l'
  | Ui _ :: l' => ext_calls l'
  end.

(** The passcodes handed to the domain's [setPasscode]. *)
Fixpoint setPasscode_calls (l : list Event) : list QByteArray :=
  match l with
  | [] => []
  | Ext (local_setPasscode p) :: l' => p :: setPasscode_calls l'
  | _ :: l' => setPasscode_calls l'
  end.

(** The passcodes handed to the domain's [checkPasscode]. *)
Fixpoint checkPasscode_calls (l : list Event) : list QByteArray :=
  match l with
  | [] => []
  | Ext (local_checkPasscode p _) :: l' => p :: checkPasscode_calls l'
  | _ :: l' => checkPasscode_calls l'
  end.

(** The texts put on the inline error label. *)
Fixpoint labels (l : list Event) : list Phrase :=
  match l with
  | [] => []
  | Ui (error_setText p) :: l' => p :: labels l'
  | _ :: l' => labels l'
  end.

(** The input fields marked as erroneous with [showError]. *)
Fixpoint marked_fields (l : list Event) : list Field :=
  match l with
  | [] => []
  | Ui (showError f) :: l' => f :: marked_fields l'
  | _ :: l' => marked_fields l'
  end.

(** How often the auto-close callback (a fire of [_showBack]) ran. *)
Fixpoint showBack_count (l : list Event) : nat :=
  match l with
  | [] => O
  | Ui showBack_fire :: l' => S (showBack_count l')
  | _ :: l' => showBack_count l'
  end.

(** ** The specification's wording, as definitions *)

(** Validation of the two fields as the specification words it: both
    fields non-empty and equal and, in Change mode, the new text not the
    current passcode. *)
Definition validation_passes {E : Externals} (ty : EnterType)
    (newText reenterText : QString) (g : Globals Domain App) : bool :=
  negb (isEmpty newText)
  && negb (isEmpty reenterText)
  && QString_eqb newText reenterText
  && match ty with
     | Change => negb (checkPasscode (domain g) (toUtf8 newText))
     | _ => true
     end.



Inductive LabelFormat : Type := HoursAndMinutes | MinutesOnly | HoursOnly.

Definition format_of (l : AutolockLabel) : LabelFormat :=
  match l with
  | lng_passcode_autolock_hours_minutes _ _ => HoursAndMinutes
  | lng_minutes _ => MinutesOnly
  | lng_hours _ => HoursOnly
  end.

(** The format rule as the specification words it: combined when both
    are non-zero, minutes-only when hours is zero or minutes alone is
    non-zero, otherwise hours-only. *)
Definition spec_format (hours minutes : Z) : LabelFormat :=
  if nonzero hours && nonzero minutes then HoursAndMinutes
  else if (hours =? 0) || (nonzero minutes && (hours =? 0)) then MinutesOnly
  else HoursOnly.







(** ** A concrete world for running the handlers *)

Fixpoint bytes_eqb (a b : QByteArray) : bool :=
  match a, b with
  | [], [] => true
  | x :: a', y :: b' => Byte.eqb x y && bytes_eqb a' b'
  | _, _ => false
  end.

Definition byte_of_N (n : N) : byte :=
  match Byte.of_N (n mod 256) with
  | Some b => b
  | None => x00
  end.

(** UTF-8 of one code unit of the Basic Multilingual Plane. *)
Definition utf8_unit (c : QChar) : QByteArray :=
  if (c <? 128)%N then [byte_of_N c]
  else if (c <? 2048)%N then
    [byte_of_N (192 + c / 64); byte_of_N (128 + c mod 64)]
  else
    [byte_of_N (224 + c / 4096); byte_of_N (128 + (c / 64) mod 64);
     byte_of_N (128 + c mod 64)].

(** A sample store: the domain keeps the passcode bytes, the application
    counts its notifications, a try is allowed below three bad tries or a
    minute after the last one. *)
Definition SampleExternals : Externals := {|
  Domain := QByteArray;
  App := nat;
  toUtf8 := flat_map utf8_unit;
  checkPasscode := fun d p => bytes_eqb d p;
  setPasscode := fun p _ => p;
  localPasscodeChanged := fun g => S (app g);
  passcodeCanTry := fun g =>
    (PasscodeBadTries g <? 3) || (now g - PasscodeLastTry g >=? 60000);
  LastUserInputTimeSupported := true
|}.

(** A world whose passcode is the one letter "a". *)
Definition sample_world (tries : Z) (last t : time)
  : Globals QByteArray nat :=
  mkGlobals [x61] O tries last t 0 3600.

(** A run of the timer: before each firing the clock and the last
    non-idle time have moved to the given readings. *)
Definition advance {E : Externals} (t last : time) : M unit := fun g =>
  (tt,
   mkGlobals (domain g) (app g) (PasscodeBadTries g) (PasscodeLastTry g)
             t last (autoLock g),
   []).

Fixpoint fire_each {E : Externals} (T : Timer) (readings : list (time * time))
  : M unit :=
  match readings with
  | [] => ret tt
  | (t, last) :: rest =>
      bind (advance t last) (fun _ =>
      bind (timer_body T) (fun _ => fire_each T rest))
  end.

Definition idle_enough (r : time * time) : bool :=
  fst r - snd r >=? kAutoCloseTimeout.

(** ** The enter screen as a whole *)

(** What the screen shows and holds between two events: its mode, the
    texts of the two fields, the field with the keyboard focus, and the
    state of the error label (hidden when the screen is built, line 190). *)
Record Screen : Type := mkScreen {
  screen_type : EnterType;
  newPasscode_text : QString;
  reenterPasscode_text : QString;
  focused : option Field;
  error_shown : bool;
  error_text : option Phrase
}.

Definition initial_screen (ty : EnterType) : Screen :=
  mkScreen ty [] [] None false None.

(** [reenterPasscode] is null in Check mode (lines 199-201). *)
Definition has_field (ty : EnterType) (f : Field) : bool :=
  match f with
  | newPasscode => true
  | reenterPasscode => negb (enterType_eqb ty Check)
  end.

(** The input whose [changed] signal hides the error label (line 202). *)
Definition error_input (ty : EnterType) : Field :=
  if enterType_eqb ty Check then newPasscode else reenterPasscode.

Definition field_eqb (a b : Field) : bool :=
  match a, b with
  | newPasscode, newPasscode | reenterPasscode, reenterPasscode => true
  | _, _ => false
  end.

Definition field_text (s : Screen) (f : Field) : QString :=
  match f with
  | newPasscode => newPasscode_text s
  | reenterPasscode => reenterPasscode_text s
  end.

Definition set_field_text (f : Field) (t : QString) (s : Screen) : Screen :=
  match f with
  | newPasscode =>
      mkScreen (screen_type s) t (reenterPasscode_text s) (focused s)
               (error_shown s) (error_text s)
  | reenterPasscode =>
      mkScreen (screen_type s) (newPasscode_text s) t (focused s)
               (error_shown s) (error_text s)
  end.

Definition hide_error (s : Screen) : Screen :=
  mkScreen (screen_type s) (newPasscode_text s) (reenterPasscode_text s)
           (focused s) false (error_text s).

(** The effect of one widget call on the screen. *)
Definition apply_ui (c : UiCall) (s : Screen) : Screen :=
  match c with
  | setFocus f =>
      mkScreen (screen_type s) (newPasscode_text s) (reenterPasscode_text s)
               (Some f) (error_shown s) (error_text s)
  | error_show =>
      mkScreen (screen_type s) (newPasscode_text s) (reenterPasscode_text s)
               (focused s) true (error_text s)
  | error_setText p =>
      mkScreen (screen_type s) (newPasscode_text s) (reenterPasscode_text s)
               (focused s) (error_shown s) (Some p)
  | _ => s
  end.

Fixpoint apply_log (l : list Event) (s : Screen) : Screen :=
  match l with
  | [] => s
  | Ui c :: l' => apply_log l' (apply_ui c s)
  | Ext _ :: l' => apply_log l' s
  end.

(** What can happen to the screen: the user moves the cursor into a
    field, changes the text of the focused field, clicks the button or
    presses Enter in the focused field; the section is asked to set its
    inner focus; time passes; the auto-close timer fires. *)
Inductive UserAction : Type :=
| FocusField (f : Field)
| EditText (t : QString)
| ClickButton
| PressEnter
| InnerFocus
| TimePasses (t last : time)
| TimerFires.

(** Widget calls aimed at one field. *)
Definition touches_field (f : Field) (e : Event) : bool :=
  match e with
  | Ui (setFocus f') | Ui (showError f') | Ui (selectAll f') => field_eqb f f'
  | _ => false
  end.

(** Fires of [_showOther] and [_showBack]. *)
Fixpoint navigations (l : list Event) : list UiCall :=
  match l with
  | [] => []
  | Ui (showOther_fire id) :: l' => showOther_fire id :: navigations l'
  | Ui showBack_fire :: l' => showBack_fire :: navigations l'
  | _ :: l' => navigations l'
  end.

Definition is_Check_click (ty : EnterType) (a : UserAction) : bool :=
  enterType_eqb ty Check
  && match a with
     | ClickButton | PressEnter => true
     | _ => false
     end.

Section ScreenHandlers.

Context {E : Externals}.

(** The handler of [_setInnerFocus] (lines 291-300). *)
Definition setInnerFocus_handler (ty : EnterType)
    (newInput reenterInput : QString) : M unit :=
  let isCheck := enterType_eqb ty Check in
  if isEmpty newInput then ui (setFocus newPasscode)
  else if negb isCheck && isEmpty reenterInput
  then ui (setFocus reenterPasscode)
  else ui (setFocus newPasscode).

(** Runs a handler of the screen and applies its widget calls. *)
Definition run_on (s : Screen) (m : M unit) : M Screen := fun g =>
  (apply_log (trace_of (m g)) s, world_of (m g), trace_of (m g)).

(** An edit of field [f]: the text changes, and the [changed] signal of
    the input the error label listens to hides the label (lines 191-193).
    An edit that leaves the text as it was changes nothing. *)
Definition edit_field (f : Field) (t : QString) (s : Screen) : Screen :=
  if QString_eqb t (field_text s f) then s
  else if field_eqb f (error_input (screen_type s))
  then hide_error (set_field_text f t s)
  else set_field_text f t s.

Definition step (a : UserAction) (s : Screen) : M Screen :=
  let ty := screen_type s in
  match a with
  | FocusField f =>
      ret (if has_field ty f then apply_ui (setFocus f) s else s)
  | EditText t =>
      match focused s with
      | Some f => ret (if has_field ty f then edit_field f t s else s)
      | None => ret s
      end
  | ClickButton =>
      run_on s (clicked ty (newPasscode_text s) (reenterPasscode_text s))
  | PressEnter =>
      match focused s with
      | Some f =>
          run_on s (submit ty (field_eqb f reenterPasscode)
                      (newPasscode_text s) (reenterPasscode_text s))
      | None => ret s
      end
  | InnerFocus =>
      run_on s (setInnerFocus_handler ty (newPasscode_text s)
                  (reenterPasscode_text s))
  | TimePasses t last =>
      bind (advance t last) (fun _ => ret s)
  | TimerFires =>
      match enter_autoCloseTimer ty with
      | Some T => run_on s (timer_body T)
      | None => ret s
      end
  end.

Fixpoint run_actions (l : list UserAction) (s : Screen) : M Screen :=
  match l with
  | [] => ret s
  | a :: l' => bind (step a s) (run_actions l')
  end.

End ScreenHandlers.

(** ** The divider of the manage screen *)

(** [Qt::Edge]: one bit per edge. *)
Inductive Edge : Type := TopEdge | LeftEdge | RightEdge | BottomEdge.

Definition edge_bit (e : Edge) : Z :=
  match e with
  | TopEdge => 0
  | LeftEdge => 1
  | RightEdge => 2
  | BottomEdge => 3
  end.

Definition edge_flag (e : Edge) : Z := Z.shiftl 1 (edge_bit e).

Record Divider : Type := mkDivider {
  _skipEdges : Z
}.

(** [Divider::skipEdge(edge, skip)]: the new divider, and whether
    [update()] was called. *)
Definition skipEdge (edge : Edge) (skip : bool) (d : Divider)
  : Divider * bool :=
  let was := _skipEdges d in
  let flags :=
    if skip then Z.lor was (edge_flag edge)
    else Z.land was (Z.lnot (edge_flag edge)) in
  (mkDivider flags, negb (was =? flags)).

Inductive PaintOp : Type := fillRect | paintTop | paintBottom.

(** [Divider::paintEvent]. *)
Definition paintEvent (d : Divider) : list PaintOp :=
  [fillRect]
  ++ (if Z.land (_skipEdges d) (edge_flag TopEdge) =? 0
      then [paintTop] else [])
  ++ (if Z.land (_skipEdges d) (edge_flag BottomEdge) =? 0
      then [paintBottom] else []).

(** A series of [skipEdge] calls, with the number of [update()] calls. *)
Fixpoint skipEdges_all (calls : list (Edge * bool)) (d : Divider)
  : Divider * nat :=
  match calls with
  | [] => (d, O)
  | (e, skip) :: rest =>
      let '(d1, updated) := skipEdge e skip d in
      let '(d2, n) := skipEdges_all rest d1 in
      (d2, ((if updated then 1 else 0) + n)%nat)
  end.

(** The last request for edge [e] in a series of calls, if any. *)
Fixpoint last_request (e : Edge) (calls : list (Edge * bool)) : option bool :=
  match calls with
  | [] => None
  | (e', skip) :: rest =>
      match last_request e rest with
      | Some b => Some b
      | None => if edge_bit e' =? edge_bit e then Some skip else None
      end
  end.

(** ** The bottom filler of the manage screen *)

(** A [QRect] through its accessors [x()], [y()], [width()] and
    [height()], all [int]. *)
Record QRect : Type := mkQRect {
  rect_x : Z;
  rect_y : Z;
  rect_width : Z;
  rect_height : Z
}.

(** The geometry [createPinnedToBottom] gives the filler divider from the
    geometries of the section, its parent and the pinned content
    (lines 460-470). *)
Definition filler_geometry (r parentRect bottomRect : QRect) : QRect :=
  let top := int32_add (rect_y r) (rect_height r) in
  mkQRect 0 top (rect_width r)
          (int32_sub (int32_sub (rect_height parentRect) top)
                     (rect_height bottomRect)).

(** [_isBottomFillerShown], from the geometry of the filler (lines 472-475);
    the filler widget reports the geometry it was given. *)
Definition isBottomFillerShown (geometry : QRect) : bool :=
  rect_height geometry >? 0.

(** The filler divider as [createPinnedToBottom] makes it (lines 454-455). *)
Definition filler_divider : Divider :=
  fst (skipEdge TopEdge true (mkDivider 0)).

(** The divider behind the about text follows [_isBottomFillerShown]
    (lines 421-424). *)
Definition about_divider_follow (r parentRect bottomRect : QRect)
    (about : Divider) : Divider * bool :=
  skipEdge BottomEdge
    (isBottomFillerShown (filler_geometry r parentRect bottomRect)) about.

(** ** Footprints of the screen, by mode *)

(** The external calls a screen of each mode makes: a Create screen only
    sets the passcode, a Check screen only checks it and keeps the try
    counters, a Change screen checks and sets it and polls the idle time. *)
Definition mode_may_call (ty : EnterType) (c : ExtCall) : bool :=
  match ty, c with
  | Create, (cSetPasscodeBadTries _ | local_setPasscode _
            | App_localPasscodeChanged) => true
  | Check, (call_passcodeCanTry _ | local_checkPasscode _ _
           | cSetPasscodeBadTries _ | cPasscodeBadTries | crl_now
           | cSetPasscodeLastTry _) => true
  | Change, (local_checkPasscode _ _ | cSetPasscodeBadTries _
            | local_setPasscode _ | App_localPasscodeChanged | crl_now
            | App_lastNonIdleTime) => true
  | _, _ => false
  end.

(** Where a screen of each mode navigates. *)
Definition nav_target (ty : EnterType) : UiCall :=
  match ty with
  | Change => showBack_fire
  | _ => showOther_fire LocalPasscodeManage_Id
  end.

(** The texts the error label of each mode can carry. *)
Definition label_allowed (ty : EnterType) (p : Phrase) : bool :=
  match ty, p with
  | Create, lng_passcode_differ => true
  | Change, (lng_passcode_differ | lng_passcode_is_same) => true
  | Check, (lng_flood_error | lng_passcode_wrong) => true
  | _, _ => false
  end.

(** The error label is in order: a text once set is one of its mode, and
    the label is not shown before a text was set. *)
Definition label_ok (s : Screen) : Prop :=
  match error_text s with
  | Some p => label_allowed (screen_type s) p = true
  | None => error_shown s = false
  end.

(** The focus is on a field the screen has. *)
Definition focus_ok (s : Screen) : bool :=
  match focused s with
  | Some f => has_field (screen_type s) f
  | None => true
  end.

(** ** Properties *)

Lemma QString_eqb_refl (s : QString) : QString_eqb s s = true.
Proof.
  induction s as [|c s IH]; simpl; [reflexivity|].
  now rewrite N.eqb_refl, IH.
Qed.

Lemma QString_eqb_eq (a b : QString) : QString_eqb a b = true <-> a = b.
Proof.
  split.
  - revert b; induction a as [|x a IH]; intros [|y b]; simpl; try discriminate.
    + reflexivity.
    + intros H. apply andb_true_iff in H as [Hx Hab].
      apply N.eqb_eq in Hx. now rewrite Hx, (IH b Hab).
  - intros ->. apply QString_eqb_refl.
Qed.

Lemma int32_wrap_small (z : Z) : in_int32 z -> int32_wrap z = z.
Proof.
  unfold in_int32, int32_min, int32_max, int32_wrap. intros Hz.
  rewrite Z.mod_small by lia. lia.
Qed.

Lemma int32_add_1 (z : Z) :
  int32_min <= z < int32_max -> int32_add z 1 = z + 1.
Proof.
  intros Hz. apply int32_wrap_small.
  unfold in_int32, int32_min, int32_max in *. lia.
Qed.

Section Properties.

Context {E : Externals}.

(** Unfolds a handler down to the primitive calls and evaluates it. *)
Ltac run_handler :=
  unfold clicked, submit, setInnerFocus_handler, SetPasscode, autolockLabel,
    disable_clicked, disable_button_clicked, autolock_button_clicked,
    autoLockBox_closing, autolock_button_title, do_controller_show,
    change_clicked, manage_autoCloseTimer,
    SetupAutoCloseTimer, autoClose_callback,
    bind, ret, ui, set_PasscodeBadTries, get_PasscodeBadTries,
    set_PasscodeLastTry, get_passcodeCanTry, get_now, get_lastNonIdleTime,
    get_autoLock, do_setPasscode, do_checkPasscode, do_localPasscodeChanged,
    trace_of, world_of, result_of;
  cbn.

(** One firing of the auto-close timer with any callback: the callback
    runs after the two readings when the idle time has reached
    [kAutoCloseTimeout], and does not run otherwise. *)
Lemma timer_body_run (callback : M unit) (g : World) :
  timer_body (SetupAutoCloseTimer callback) g =
    if now g - lastNonIdleTime g >=? kAutoCloseTimeout
    then (result_of (callback g), world_of (callback g),
          [Ext crl_now; Ext App_lastNonIdleTime] ++ trace_of (callback g))
    else (tt, g, [Ext crl_now; Ext App_lastNonIdleTime]).
Proof.
  unfold SetupAutoCloseTimer, timer_body, bind, get_now, get_lastNonIdleTime,
    ret, result_of, world_of, trace_of.
  destruct (now g - lastNonIdleTime g >=? kAutoCloseTimeout).
  - destruct (callback g) as [[u g'] l]. reflexivity.
  - reflexivity.
Qed.

(** C1: in Create and Change mode the click handler hands the entered
    text to the domain's setter exactly once when validation passes (both
    fields non-empty and equal and, in Change mode, the new text not the
    current passcode), and not at all otherwise; the world after the click
    is the one [SetPasscode] leaves in the first case and the one before
    the click in the second. *)
Theorem C1_setter_called_iff_validation_passes
    (ty : EnterType) (newText reenterText : QString) (g : World) :
  ty <> Check ->
  let out := clicked ty newText reenterText g in
  if validation_passes ty newText reenterText g
  then setPasscode_calls (trace_of out) = [toUtf8 newText]
       /\ world_of out = world_of (SetPasscode newText g)
  else setPasscode_calls (trace_of out) = []
       /\ world_of out = g.
Proof.
  intros Hty out; subst out.
  unfold validation_passes.
  destruct ty; [ | contradiction Hty; reflexivity | ];
    destruct newText as [|a n]; destruct reenterText as [|b r];
    try (run_handler; split; reflexivity).
  - destruct (QString_eqb (a :: n) (b :: r)) eqn:Heq.
    + run_handler. simpl in Heq. rewrite Heq. cbn. split; reflexivity.
    + run_handler. simpl in Heq. rewrite Heq. cbn. split; reflexivity.
  - destruct (QString_eqb (a :: n) (b :: r)) eqn:Heq.
    + run_handler. simpl in Heq. rewrite Heq. cbn.
      destruct (checkPasscode (domain g) (toUtf8 (a :: n))); cbn;
        split; reflexivity.
    + run_handler. simpl in Heq. rewrite Heq. cbn. split; reflexivity.
Qed.


(** C3: in Check mode, while tries are allowed, a click hands the UTF-8
    of the entered text to [checkPasscode], once.  If the check fails the
    bad-try count goes up by exactly one and the last-try timestamp
    becomes the current time; if it passes the bad-try count is reset to
    zero and the last-try timestamp stays as it was.  The count is an
    [int32] below its maximum, so that the increment does not overflow. *)
Theorem C3_check_mode_counters
    (newText reenterText : QString) (g : World) :
  passcodeCanTry g = true ->
  int32_min <= PasscodeBadTries g < int32_max ->
  let out := clicked Check newText reenterText g in
  checkPasscode_calls (trace_of out) = [toUtf8 newText]
  /\ if checkPasscode (domain g) (toUtf8 newText)
     then PasscodeBadTries (world_of out) = 0
          /\ PasscodeLastTry (world_of out) = PasscodeLastTry g
     else PasscodeBadTries (world_of out) = PasscodeBadTries g + 1
          /\ PasscodeLastTry (world_of out) = now g.
Proof.
  intros Hcan Hrange out; subst out. run_handler.
  rewrite Hcan. cbn.
  destruct (checkPasscode (domain g) (toUtf8 newText)); cbn.
  - repeat split; reflexivity.
  - rewrite (int32_add_1 _ Hrange). repeat split; reflexivity.
Qed.


Lemma showBack_count_app (l1 l2 : list Event) :
  showBack_count (l1 ++ l2) = (showBack_count l1 + showBack_count l2)%nat.
Proof.
  induction l1 as [|e l1 IH]; simpl; [reflexivity|].
  destruct e as [c|c]; [exact IH|].
  destruct c; simpl; try exact IH. now rewrite IH.
Qed.

Lemma trace_of_bind {R S : Type} (m : M R) (k : R -> M S) (g : World) :
  trace_of (bind m k g)
  = trace_of (m g) ++ trace_of (k (result_of (m g)) (world_of (m g))).
Proof.
  unfold bind, trace_of, result_of, world_of.
  destruct (m g) as [[r g1] l1]. cbn.
  destruct (k r g1) as [[s g2] l2]. reflexivity.
Qed.

Lemma world_of_bind {R S : Type} (m : M R) (k : R -> M S) (g : World) :
  world_of (bind m k g) = world_of (k (result_of (m g)) (world_of (m g))).
Proof.
  unfold bind, trace_of, result_of, world_of.
  destruct (m g) as [[r g1] l1]. cbn.
  destruct (k r g1) as [[s g2] l2]. reflexivity.
Qed.

Lemma timer_body_showBack (g : World) :
  showBack_count
    (trace_of (timer_body (SetupAutoCloseTimer autoClose_callback) g))
  = if now g - lastNonIdleTime g >=? kAutoCloseTimeout then 1%nat else 0%nat.
Proof.
  rewrite timer_body_run.
  destruct (now g - lastNonIdleTime g >=? kAutoCloseTimeout); reflexivity.
Qed.

Lemma fire_each_count (readings : list (time * time)) (g : World) :
  showBack_count
    (trace_of (fire_each (SetupAutoCloseTimer autoClose_callback) readings g))
  = length (filter idle_enough readings).
Proof.
  revert g. induction readings as [|[t last] rest IH]; intros g.
  - reflexivity.
  - cbn [fire_each filter].
    rewrite !trace_of_bind, !showBack_count_app, IH, timer_body_showBack.
    unfold advance, world_of. cbn [fst snd now lastNonIdleTime showBack_count trace_of].
    change (t - last >=? kAutoCloseTimeout) with (idle_enough (t, last)).
    destruct (idle_enough (t, last)); reflexivity.
Qed.

(** C5: the auto-close timer is set to repeat every [kTimerCheck], which
    is 60 seconds; each firing runs the callback if and only if the idle
    time, now minus the last non-idle time, is at least
    [kAutoCloseTimeout], which is 10 minutes; over any run of firings the
    callback runs exactly at the firings that find the idle time at or
    above the threshold, and never below it. *)
Theorem C5_auto_close_timer
    (callback : M unit) (g : World) (readings : list (time * time)) :
  timer_each (SetupAutoCloseTimer callback) = 60 * 1000
  /\ kAutoCloseTimeout = 10 * 60 * 1000
  /\ timer_body (SetupAutoCloseTimer callback) g
     = (if 10 * 60 * 1000 <=? now g - lastNonIdleTime g
        then bind get_now (fun _ => bind get_lastNonIdleTime (fun _ => callback)) g
        else (tt, g, [Ext crl_now; Ext App_lastNonIdleTime]))
  /\ showBack_count
       (trace_of (timer_body (SetupAutoCloseTimer autoClose_callback) g))
     = (if 10 * 60 * 1000 <=? now g - lastNonIdleTime g then 1%nat else 0%nat)
  /\ showBack_count
       (trace_of
          (fire_each (SetupAutoCloseTimer autoClose_callback) readings g))
     = length (filter idle_enough readings).
Proof.
  split; [reflexivity|]. split; [reflexivity|].
  split; [|split].
  - rewrite timer_body_run. rewrite Z.geb_leb.
    change kAutoCloseTimeout with (10 * 60 * 1000).
    destruct (10 * 60 * 1000 <=? now g - lastNonIdleTime g); [|reflexivity].
    unfold bind, get_now, get_lastNonIdleTime, result_of, world_of, trace_of.
    destruct (callback g) as [[u g'] l]. reflexivity.
  - rewrite timer_body_run. rewrite Z.geb_leb.
    change kAutoCloseTimeout with (10 * 60 * 1000).
    destruct (10 * 60 * 1000 <=? now g - lastNonIdleTime g); reflexivity.
  - apply fire_each_count.
Qed.

(** C6: confirming the box of the manage screen's disable button runs
    [SetPasscode] on the empty string: the bad-try count is reset to zero,
    the empty passcode goes to the domain's [setPasscode], the application
    is notified, the box closes and the screen navigates back, in this
    order.  The click itself only builds the box. *)
Theorem C6_disable_removes_passcode (g : World) :
  toUtf8 [] = [] ->
  let out := box_confirmed disable_clicked g in
  box_confirmed disable_clicked
    = bind (SetPasscode []) (fun _ => bind (ui box_close) (fun _ => ui showBack_fire))
  /\ trace_of out
     = [Ext (cSetPasscodeBadTries 0); Ext (local_setPasscode []);
        Ext App_localPasscodeChanged; Ui box_close; Ui showBack_fire]
  /\ setPasscode_calls (trace_of out) = [[]]
  /\ domain (world_of out) = setPasscode [] (domain g)
  /\ PasscodeBadTries (world_of out) = 0.
Proof.
  intros Hempty out; subst out.
  split; [reflexivity|].
  run_handler. rewrite Hempty. repeat split; reflexivity.
Qed.

(** C7: in Check mode, while [passcodeCanTry] answers no, the click shows
    the flood error and returns: [checkPasscode] is not called and the
    world, with its bad-try count and last-try timestamp, stays as it
    was. *)
Theorem C7_rate_limited_click (newText reenterText : QString) (g : World) :
  passcodeCanTry g = false ->
  let out := clicked Check newText reenterText g in
  trace_of out
    = [Ext (call_passcodeCanTry false); Ui (setFocus newPasscode);
       Ui (showError newPasscode); Ui error_show;
       Ui (error_setText lng_flood_error)]
  /\ checkPasscode_calls (trace_of out) = []
  /\ world_of out = g
  /\ PasscodeBadTries (world_of out) = PasscodeBadTries g
  /\ PasscodeLastTry (world_of out) = PasscodeLastTry g.
Proof.
  intros Hcan out; subst out.
  run_handler. rewrite Hcan. cbn. repeat split; reflexivity.
Qed.

(** C8: in Change mode, when both fields hold the same non-empty text and
    [checkPasscode] succeeds on it, the click shows the same-passcode
    error on the first field and returns: [SetPasscode] does not run, and
    the world, with the stored passcode and the bad-try count, stays as it
    was. *)
Theorem C8_change_to_same_passcode (newText : QString) (g : World) :
  isEmpty newText = false ->
  checkPasscode (domain g) (toUtf8 newText) = true ->
  let out := clicked Change newText newText g in
  trace_of out
    = [Ext (local_checkPasscode (toUtf8 newText) true);
       Ui (setFocus newPasscode); Ui (showError newPasscode);
       Ui (selectAll newPasscode); Ui error_show;
       Ui (error_setText lng_passcode_is_same)]
  /\ setPasscode_calls (trace_of out) = []
  /\ world_of out = g
  /\ domain (world_of out) = domain g
  /\ PasscodeBadTries (world_of out) = PasscodeBadTries g.
Proof.
  intros Hne Hsame out; subst out.
  destruct newText as [|a n]; [discriminate Hne|].
  pose proof (QString_eqb_refl (a :: n)) as Hrefl. simpl in Hrefl.
  run_handler. rewrite Hrefl. cbn. rewrite Hsame. cbn.
  repeat split; reflexivity.
Qed.

(** C9 (amended): the label splits the auto-lock value into
    hours = autolock / 3600 and minutes = (autolock - hours * 3600) / 60
    with truncating division, and picks the combined format when hours and
    minutes are both non-zero, the minutes-only format when minutes is
    non-zero and hours is zero, and the hours-only format whenever minutes
    is zero; for every value of magnitude below 60, so from 0 to 59 seconds,
    this is the hours-only format with hours equal to zero. *)
Theorem C9_autolock_label (autolock : Z) (g : World) :
  (autolock_hours autolock = Z.quot autolock 3600
   /\ autolock_minutes autolock
      = Z.quot (autolock - autolock_hours autolock * 3600) 60)
  /\ autolockLabel_of autolock
     = (if nonzero (autolock_hours autolock)
           && nonzero (autolock_minutes autolock)
        then lng_passcode_autolock_hours_minutes
               (autolock_hours autolock) (autolock_minutes autolock)
        else if nonzero (autolock_minutes autolock)
                && (autolock_hours autolock =? 0)
        then lng_minutes (autolock_minutes autolock)
        else lng_hours (autolock_hours autolock))
  /\ (autolock_minutes autolock = 0 ->
      autolockLabel_of autolock = lng_hours (autolock_hours autolock))
  /\ result_of (autolockLabel g) = autolockLabel_of (autoLock g)
  /\ (-60 < autolock < 60 ->
      autolock_hours autolock = 0
      /\ autolock_minutes autolock = 0
      /\ autolockLabel_of autolock = lng_hours 0).
Proof.
  split; [split; reflexivity|].
  split.
  { unfold autolockLabel_of, nonzero.
    destruct (autolock_hours autolock =? 0); cbn;
      destruct (autolock_minutes autolock =? 0); reflexivity. }
  split.
  { intros Hm. unfold autolockLabel_of, nonzero. rewrite Hm. cbn.
    now rewrite andb_false_r. }
  split; [reflexivity|].
  intros Hrange.
  assert (Hq : forall d, 60 <= d -> Z.quot autolock d = 0).
  { intros d Hd. destruct (Z_lt_le_dec autolock 0) as [Hneg|Hpos].
    - replace autolock with (- (- autolock)) by lia.
      rewrite Z.quot_opp_l by lia.
      rewrite Z.quot_small by lia. reflexivity.
    - apply Z.quot_small. lia. }
  assert (Hh : autolock_hours autolock = 0).
  { unfold autolock_hours. apply Hq. lia. }
  assert (Hm : autolock_minutes autolock = 0).
  { unfold autolock_minutes. rewrite Hh.
    replace (autolock - 0 * 3600) with autolock by lia. apply Hq. lia. }
  repeat split; try assumption.
  unfold autolockLabel_of. rewrite Hh, Hm. reflexivity.
Qed.

(** C10: in Check mode an empty input gets no validation of its own:
    while tries are allowed the click calls [checkPasscode] on the empty
    byte string, and if the check fails the bad-try count goes up by one,
    the last-try timestamp becomes the current time and the wrong-passcode
    error is shown, leaving the same world and the same widget calls as
    any other wrong passcode.  The count is an [int32] below its maximum,
    so that the increment does not overflow. *)
Theorem C10_check_mode_empty_input (reenterText : QString) (g : World) :
  toUtf8 [] = [] ->
  passcodeCanTry g = true ->
  int32_min <= PasscodeBadTries g < int32_max ->
  let out := clicked Check [] reenterText g in
  checkPasscode_calls (trace_of out) = [[]]
  /\ (checkPasscode (domain g) [] = false ->
      PasscodeBadTries (world_of out) = PasscodeBadTries g + 1
      /\ PasscodeLastTry (world_of out) = now g
      /\ labels (trace_of out) = [lng_passcode_wrong]
      /\ forall wrongText reenterText' : QString,
           checkPasscode (domain g) (toUtf8 wrongText) = false ->
           world_of (clicked Check wrongText reenterText' g) = world_of out
           /\ map (fun e => match e with
                            | Ext (local_checkPasscode _ r) =>
                                Ext (local_checkPasscode [] r)
                            | _ => e
                            end)
                  (trace_of (clicked Check wrongText reenterText' g))
              = trace_of out).
Proof.
  intros Hempty Hcan Hrange out; subst out.
  split.
  - run_handler. rewrite Hcan, Hempty. cbn.
    destruct (checkPasscode (domain g) []); reflexivity.
  - intros Hfail. run_handler. rewrite Hcan, Hempty. cbn.
    rewrite Hfail. cbn.
    split; [apply (int32_add_1 _ Hrange)|].
    do 2 (split; [reflexivity|]).
    intros wrongText reenterText' Hwrong. rewrite Hwrong. cbn.
    split; reflexivity.
Qed.

End Properties.

(** ** Runs in the sample world *)

(** Create mode, "ab" entered twice: the setter gets the bytes of "ab". *)
Lemma C1_witness :
  Create <> Check
  /\ setPasscode_calls
       (trace_of (clicked (E := SampleExternals) Create [97; 98]%N [97; 98]%N
                    (sample_world 2 0 0)))
     = [[x61; x62]]
  /\ world_of (clicked (E := SampleExternals) Create [97; 98]%N [97; 98]%N
                 (sample_world 2 0 0))
     = mkGlobals [x61; x62] 1%nat 0 0 0 0 3600.
Proof.
  split; [discriminate|].
  exact (C1_setter_called_iff_validation_passes (E := SampleExternals)
           Create [97; 98]%N [97; 98]%N (sample_world 2 0 0)
           ltac:(discriminate)).
Defined.


(** Check mode, the wrong passcode "b" after two bad tries at time 1000. *)
Lemma C3_witness :
  passcodeCanTry (Externals := SampleExternals) (sample_world 2 0 1000) = true
  /\ int32_min <= PasscodeBadTries (sample_world 2 0 1000) < int32_max
  /\ checkPasscode_calls
       (trace_of (clicked (E := SampleExternals) Check [98%N] []
                    (sample_world 2 0 1000))) = [[x62]]
  /\ PasscodeBadTries
       (world_of (clicked (E := SampleExternals) Check [98%N] []
                    (sample_world 2 0 1000))) = 3
  /\ PasscodeLastTry
       (world_of (clicked (E := SampleExternals) Check [98%N] []
                    (sample_world 2 0 1000))) = 1000.
Proof.
  assert (Hrange : int32_min <= PasscodeBadTries (sample_world 2 0 1000)
                   < int32_max)
    by (split; [discriminate | reflexivity]).
  split; [reflexivity|]. split; [exact Hrange|].
  exact (C3_check_mode_counters (E := SampleExternals) [98%N] []
           (sample_world 2 0 1000) eq_refl Hrange).
Defined.


Lemma C6_witness :
  toUtf8 (Externals := SampleExternals) [] = []
  /\ trace_of (box_confirmed (disable_clicked (E := SampleExternals))
                 (sample_world 4 0 1000))
     = [Ext (cSetPasscodeBadTries 0); Ext (local_setPasscode []);
        Ext App_localPasscodeChanged; Ui box_close; Ui showBack_fire]
  /\ world_of (box_confirmed (disable_clicked (E := SampleExternals))
                 (sample_world 4 0 1000))
     = mkGlobals [] 1%nat 0 0 1000 0 3600.
Proof.
  split; [reflexivity|].
  pose proof (C6_disable_removes_passcode (E := SampleExternals)
                (sample_world 4 0 1000) eq_refl) as H.
  split; [exact (proj1 (proj2 H)) | reflexivity].
Defined.

(** Three bad tries, the last one a second ago: no try is allowed. *)
Lemma C7_witness :
  passcodeCanTry (Externals := SampleExternals) (sample_world 3 0 1000) = false
  /\ checkPasscode_calls
       (trace_of (clicked (E := SampleExternals) Check [97%N] []
                    (sample_world 3 0 1000))) = []
  /\ world_of (clicked (E := SampleExternals) Check [97%N] []
                 (sample_world 3 0 1000))
     = sample_world 3 0 1000.
Proof.
  split; [reflexivity|].
  pose proof (C7_rate_limited_click (E := SampleExternals) [97%N] []
                (sample_world 3 0 1000) eq_refl) as H.
  split; [exact (proj1 (proj2 H)) | exact (proj1 (proj2 (proj2 H)))].
Defined.

Lemma C8_witness :
  isEmpty [97%N] = false
  /\ checkPasscode (Externals := SampleExternals)
       (domain (sample_world 1 0 0))
       (toUtf8 (Externals := SampleExternals) [97%N]) = true
  /\ setPasscode_calls
       (trace_of (clicked (E := SampleExternals) Change [97%N] [97%N]
                    (sample_world 1 0 0))) = []
  /\ world_of (clicked (E := SampleExternals) Change [97%N] [97%N]
                 (sample_world 1 0 0))
     = sample_world 1 0 0.
Proof.
  split; [reflexivity|]. split; [reflexivity|].
  pose proof (C8_change_to_same_passcode (E := SampleExternals) [97%N]
                (sample_world 1 0 0) eq_refl eq_refl) as H.
  split; [exact (proj1 (proj2 H)) | exact (proj1 (proj2 (proj2 H)))].
Defined.

(** Thirty seconds: hours is zero, so the specification's rule picks the
    minutes-only format, while the label is the hours-only one. *)
Lemma C9_counterexample :
  ~ (forall autolock : Z,
        format_of (autolockLabel_of autolock)
        = spec_format (autolock_hours autolock) (autolock_minutes autolock)).
Proof.
  intros H. specialize (H 30). vm_compute in H. discriminate H.
Qed.

(** A value below 60 that is negative by an hour or more has non-zero
    hours. *)
Lemma autolock_hours_negative :
  -3600 < 60 /\ autolockLabel_of (-3600) = lng_hours (-1).
Proof. split; reflexivity. Qed.

Lemma C9_witness :
  -60 < 30 < 60
  /\ autolockLabel_of 30 = lng_hours 0
  /\ autolockLabel_of 5400 = lng_passcode_autolock_hours_minutes 1 30
  /\ autolockLabel_of 300 = lng_minutes 5.
Proof.
  assert (Hr : -60 < 30 < 60) by (split; reflexivity).
  split; [exact Hr|].
  pose proof (C9_autolock_label (E := SampleExternals) 30
                (sample_world 0 0 0)) as (_ & _ & _ & _ & Hsmall).
  split; [exact (proj2 (proj2 (Hsmall Hr))) |].
  split; reflexivity.
Defined.

Lemma C10_witness :
  toUtf8 (Externals := SampleExternals) [] = []
  /\ passcodeCanTry (Externals := SampleExternals) (sample_world 0 0 1000)
     = true
  /\ int32_min <= PasscodeBadTries (sample_world 0 0 1000) < int32_max
  /\ checkPasscode_calls
       (trace_of (clicked (E := SampleExternals) Check [] []
                    (sample_world 0 0 1000))) = [[]]
  /\ PasscodeBadTries
       (world_of (clicked (E := SampleExternals) Check [] []
                    (sample_world 0 0 1000))) = 1
  /\ PasscodeLastTry
       (world_of (clicked (E := SampleExternals) Check [] []
                    (sample_world 0 0 1000))) = 1000.
Proof.
  assert (Hrange : int32_min <= PasscodeBadTries (sample_world 0 0 1000)
                   < int32_max)
    by (split; [discriminate | reflexivity]).
  split; [reflexivity|]. split; [reflexivity|]. split; [exact Hrange|].
  pose proof (C10_check_mode_empty_input (E := SampleExternals) []
                (sample_world 0 0 1000) eq_refl eq_refl Hrange)
    as [Hcall Hfail].
  split; [exact Hcall|].
  destruct (Hfail eq_refl) as [Hbad [Hlast _]].
  split; [exact Hbad | exact Hlast].
Defined.

(** ** Further properties of the enter screen *)

Section ScreenProperties.

Context {E : Externals}.

Ltac eval_handler :=
  unfold clicked, submit, setInnerFocus_handler, SetPasscode,
    SetupAutoCloseTimer, autoClose_callback, enter_autoCloseTimer,
    bind, ret, ui, set_PasscodeBadTries, get_PasscodeBadTries,
    set_PasscodeLastTry, get_passcodeCanTry, get_now, get_lastNonIdleTime,
    get_autoLock, do_setPasscode, do_checkPasscode, do_localPasscodeChanged,
    trace_of, world_of, result_of;
  cbn.

Ltac split_ifs :=
  repeat match goal with
         | |- context [if ?c then _ else _] => destruct c eqn:?; cbn
         end.

(** All the ways through the click handler. *)
Ltac click_cases ty newText reenterText :=
  destruct ty; destruct newText as [|? ?]; destruct reenterText as [|? ?];
  eval_handler; split_ifs.

(** X1: Every click ends in exactly one of two ways: it marks one field as
    erroneous and stays, or it marks none and navigates once, to the
    manage screen from Create and Check and back from Change. *)
Theorem click_marks_or_navigates
    (ty : EnterType) (newText reenterText : QString) (g : World) :
  let tr := trace_of (clicked ty newText reenterText g) in
  (length (marked_fields tr) + length (navigations tr) = 1)%nat
  /\ navigations tr
     = match marked_fields tr with
       | [] => [match ty with
                | Change => showBack_fire
                | _ => showOther_fire LocalPasscodeManage_Id
                end]
       | _ :: _ => []
       end.
Proof.
  intros tr; subst tr.
  click_cases ty newText reenterText; split; reflexivity.
Qed.

(** X2: A click that navigates leaves the bad-try count at zero, in every
    mode. *)
Theorem navigating_click_resets_bad_tries
    (ty : EnterType) (newText reenterText : QString) (g : World) :
  navigations (trace_of (clicked ty newText reenterText g)) <> [] ->
  PasscodeBadTries (world_of (clicked ty newText reenterText g)) = 0.
Proof.
  click_cases ty newText reenterText; intros H;
    try reflexivity; contradiction H; reflexivity.
Qed.

(** X3: The inner focus goes to the field a click would mark for being empty:
    when one of the two fields of a Create or Change screen is empty, the
    focus request and the click aim at the same field.  In every other
    case the focus goes to the first field.  The request makes no external
    call and leaves the world as it is. *)
Theorem inner_focus_matches_empty_mark
    (ty : EnterType) (newText reenterText : QString) (g : World) :
  let out := setInnerFocus_handler ty newText reenterText g in
  (if negb (enterType_eqb ty Check)
      && (isEmpty newText || isEmpty reenterText)
   then trace_of out
        = map (fun f => Ui (setFocus f))
            (marked_fields (trace_of (clicked ty newText reenterText g)))
   else trace_of out = [Ui (setFocus newPasscode)])
  /\ world_of out = g.
Proof.
  intros out; subst out.
  destruct ty; destruct newText as [|a n]; destruct reenterText as [|b r];
    eval_handler; split; reflexivity.
Qed.

(** *** Sequences of actions *)

Lemma result_of_bind {R S : Type} (m : M R) (k : R -> M S) (g : World) :
  result_of (bind m k g) = result_of (k (result_of (m g)) (world_of (m g))).
Proof.
  unfold bind, trace_of, result_of, world_of.
  destruct (m g) as [[r g1] l1]. cbn.
  destruct (k r g1) as [[s g2] l2]. reflexivity.
Qed.

Lemma apply_log_type (l : list Event) (s : Screen) :
  screen_type (apply_log l s) = screen_type s.
Proof.
  revert s. induction l as [|e l IH]; intros s; [reflexivity|].
  destruct e as [c|c]; cbn [apply_log]; rewrite IH; [reflexivity|].
  destruct c; reflexivity.
Qed.

Lemma step_type (a : UserAction) (s : Screen) (g : World) :
  screen_type (result_of (step a s g)) = screen_type s.
Proof.
  destruct a; unfold step; cbn [result_of].
  - unfold ret, result_of; cbn. destruct (has_field _ _); reflexivity.
  - destruct (focused s) as [f|]; unfold ret, result_of; cbn; [|reflexivity].
    destruct (has_field _ _); [|reflexivity].
    unfold edit_field. destruct (QString_eqb _ _); [reflexivity|].
    destruct (field_eqb _ _); destruct f; reflexivity.
  - unfold run_on, result_of; cbn. apply apply_log_type.
  - destruct (focused s) as [f|]; [|reflexivity].
    unfold run_on, result_of; cbn. apply apply_log_type.
  - unfold run_on, result_of; cbn. apply apply_log_type.
  - reflexivity.
  - destruct (enter_autoCloseTimer _); [|reflexivity].
    unfold run_on, result_of; cbn. apply apply_log_type.
Qed.

(** A property of screen and world that every step keeps, together with
    a property of logs that every step's log has and that appending
    keeps, holds along every sequence of actions. *)
Lemma run_actions_invariant
    (P : Screen -> World -> Prop) (Q : list Event -> Prop) :
  Q [] ->
  (forall l1 l2, Q l1 -> Q l2 -> Q (l1 ++ l2)) ->
  (forall a s g, P s g ->
     P (result_of (step a s g)) (world_of (step a s g))
     /\ Q (trace_of (step a s g))) ->
  forall l s g, P s g ->
    P (result_of (run_actions l s g)) (world_of (run_actions l s g))
    /\ Q (trace_of (run_actions l s g)).
Proof.
  intros Hnil Happ Hstep l.
  induction l as [|a l IH]; intros s g HP.
  - split; [exact HP | exact Hnil].
  - cbn [run_actions].
    rewrite result_of_bind, world_of_bind, trace_of_bind.
    destruct (Hstep a s g HP) as [HP1 HQ1].
    destruct (IH _ _ HP1) as [HP2 HQ2].
    split; [exact HP2 | apply Happ; assumption].
Qed.

Lemma existsb_app_false {T : Type} (f : T -> bool) (l1 l2 : list T) :
  existsb f l1 = false -> existsb f l2 = false -> existsb f (l1 ++ l2) = false.
Proof. intros H1 H2. now rewrite existsb_app, H1, H2. Qed.

(** X4: In Check mode the second field does not exist, and nothing ever
    reaches for it: whatever the user does, no handler focuses, marks or
    selects [reenterPasscode], the focus never lands on it and its text
    stays what it was. *)
Theorem check_screen_never_touches_reenterPasscode
    (l : list UserAction) (s : Screen) (g : World) :
  screen_type s = Check ->
  focus_ok s = true ->
  let out := run_actions l s g in
  existsb (touches_field reenterPasscode) (trace_of out) = false
  /\ focused (result_of out) <> Some reenterPasscode
  /\ reenterPasscode_text (result_of out) = reenterPasscode_text s.
Proof.
  intros Hty Hfocus out; subst out.
  pose (P := fun (s' : Screen) (_ : World) =>
               screen_type s' = Check
               /\ focus_ok s' = true
               /\ reenterPasscode_text s' = reenterPasscode_text s).
  pose (Q := fun l' : list Event =>
               existsb (touches_field reenterPasscode) l' = false).
  destruct (run_actions_invariant P Q) with (l := l) (s := s) (g := g)
    as [[_ [Hf Hr]] HQ].
  - reflexivity.
  - intros l1 l2. apply existsb_app_false.
  - clear. intros a s' g' [Hty [Hfo Hre]]. unfold P, Q.
    rewrite step_type. split; [split; [exact Hty|]|].
    + destruct s' as [ty nt rt fo sh tx]. cbn in Hty, Hfo, Hre |- *.
      subst ty. unfold focus_ok in *. cbn in Hfo |- *.
      destruct a as [f|t| | | |t last|]; unfold step, run_on, edit_field;
        cbn [screen_type newPasscode_text reenterPasscode_text focused
             error_shown error_text result_of fst snd].
      * destruct f; cbn; auto.
      * destruct fo as [[|]|]; cbn in Hfo |- *; try discriminate; auto.
        destruct (QString_eqb t nt); cbn; auto.
      * eval_handler. split_ifs; cbn; auto.
      * destruct fo as [[|]|]; cbn in Hfo |- *; try discriminate; auto.
        eval_handler. split_ifs; cbn; auto.
      * destruct nt; eval_handler; cbn; auto.
      * cbn; auto.
      * cbn; auto.
    + destruct s' as [ty nt rt fo sh tx]. cbn in Hty, Hfo, Hre |- *.
      subst ty. unfold focus_ok in *. cbn in Hfo.
      destruct a as [f|t| | | |t last|]; unfold step, run_on;
        cbn [screen_type newPasscode_text reenterPasscode_text focused
             error_shown error_text trace_of fst snd].
      * reflexivity.
      * destruct fo as [[|]|]; reflexivity.
      * eval_handler. split_ifs; reflexivity.
      * destruct fo as [[|]|]; cbn in Hfo |- *; try discriminate;
          try reflexivity.
        eval_handler. split_ifs; reflexivity.
      * destruct nt; eval_handler; reflexivity.
      * reflexivity.
      * reflexivity.
  - unfold P. auto.
  - unfold focus_ok in Hf.
    split; [exact HQ|]. split; [|exact Hr].
    intros Hbad. rewrite Hbad in Hf.
    assert (Ht : screen_type (result_of (run_actions l s g)) = Check).
    { destruct (run_actions_invariant
                  (fun s' _ => screen_type s' = Check) (fun _ => True))
        with (l := l) (s := s) (g := g) as [Ht _]; auto.
      intros a s' g' Hs'. rewrite step_type. auto. }
    rewrite Ht in Hf. discriminate Hf.
Qed.

Lemma ext_calls_app (l1 l2 : list Event) :
  ext_calls (l1 ++ l2) = ext_calls l1 ++ ext_calls l2.
Proof.
  induction l1 as [|e l1 IH]; [reflexivity|].
  destruct e; cbn; now rewrite IH.
Qed.

Lemma navigations_app (l1 l2 : list Event) :
  navigations (l1 ++ l2) = navigations l1 ++ navigations l2.
Proof.
  induction l1 as [|e l1 IH]; [reflexivity|].
  destruct e as [c|c]; cbn; [exact IH|].
  destruct c; cbn; now rewrite IH.
Qed.

Ltac step_cases a s :=
  destruct s as [ty nt rt fo sh tx];
  destruct a as [f|t| | | |t last|]; unfold step, run_on;
  cbn [screen_type newPasscode_text reenterPasscode_text focused
       error_shown error_text].

(** X5: Whatever the user does on an enter screen, the screen makes only the
    external calls of its mode and never changes the auto-lock setting; a
    Check screen leaves the stored passcode and the application object
    alone, a Create or Change screen leaves the last-try timestamp
    alone. *)
Theorem screen_footprint (l : list UserAction) (s : Screen) (g : World) :
  let out := run_actions l s g in
  forallb (mode_may_call (screen_type s)) (ext_calls (trace_of out)) = true
  /\ autoLock (world_of out) = autoLock g
  /\ if enterType_eqb (screen_type s) Check
     then domain (world_of out) = domain g /\ app (world_of out) = app g
     else PasscodeLastTry (world_of out) = PasscodeLastTry g.
Proof.
  intros out; subst out.
  pose (P := fun (s' : Screen) (g' : World) =>
               screen_type s' = screen_type s
               /\ autoLock g' = autoLock g
               /\ if enterType_eqb (screen_type s) Check
                  then domain g' = domain g /\ app g' = app g
                  else PasscodeLastTry g' = PasscodeLastTry g).
  pose (Q := fun l' : list Event =>
               forallb (mode_may_call (screen_type s)) (ext_calls l') = true).
  destruct (run_actions_invariant P Q) with (l := l) (s := s) (g := g)
    as [[_ [Ha Hm]] HQ].
  - reflexivity.
  - intros l1 l2 H1 H2. unfold Q in *.
    now rewrite ext_calls_app, forallb_app, H1, H2.
  - intros a s' g' [Hty [Ha Hm]]. unfold P, Q.
    rewrite step_type. rewrite <- Hty in *. clear Hty P Q.
    step_cases a s'; destruct ty; cbn in Hm |- *;
      try (destruct fo as [[|]|]; cbn);
      try (destruct nt as [|? ?]; destruct rt as [|? ?]);
      eval_handler; split_ifs; cbn; tauto.
  - unfold P. split; [reflexivity|]. split; [reflexivity|].
    destruct (enterType_eqb _ _); auto.
  - auto.
Qed.

(** X6: An enter screen navigates to one place only, whatever the user does:
    a Create or Check screen to the manage screen, a Change screen back.
    In particular only a Change screen ever closes itself. *)
Theorem screen_navigates_to_one_place
    (l : list UserAction) (s : Screen) (g : World) :
  Forall (fun c => c = nav_target (screen_type s))
    (navigations (trace_of (run_actions l s g)))
  /\ (if enterType_eqb (screen_type s) Change then True
      else showBack_count (trace_of (run_actions l s g)) = 0%nat).
Proof.
  pose (P := fun (s' : Screen) (_ : World) => screen_type s' = screen_type s).
  pose (Q := fun l' : list Event =>
               Forall (fun c => c = nav_target (screen_type s))
                 (navigations l')
               /\ (if enterType_eqb (screen_type s) Change then True
                   else showBack_count l' = 0%nat)).
  destruct (run_actions_invariant P Q) with (l := l) (s := s) (g := g)
    as [_ HQ].
  - split; [constructor|]. destruct (enterType_eqb _ _); reflexivity.
  - intros l1 l2 [H1 H1'] [H2 H2']. split.
    + rewrite navigations_app. apply Forall_app. auto.
    + destruct (enterType_eqb _ _); [exact I|].
      now rewrite showBack_count_app, H1', H2'.
  - intros a s' g' Hty. unfold P, Q.
    rewrite step_type. split; [exact Hty|].
    unfold P in Hty. rewrite <- Hty. clear Hty P Q.
    step_cases a s'; destruct ty; cbn;
      try (destruct fo as [[|]|]; cbn);
      try (destruct nt as [|? ?]; destruct rt as [|? ?]);
      eval_handler; split_ifs; cbn;
      (split; [repeat constructor | try reflexivity; exact I]).
  - reflexivity.
  - exact HQ.
Qed.

Lemma step_bad_tries (a : UserAction) (s : Screen) (g : World) :
  0 <= PasscodeBadTries g ->
  (is_Check_click (screen_type s) a = true ->
   PasscodeBadTries g < int32_max) ->
  0 <= PasscodeBadTries (world_of (step a s g))
    <= PasscodeBadTries g
       + (if is_Check_click (screen_type s) a then 1 else 0).
Proof.
  intros H0 Hmax.
  assert (Hadd : is_Check_click (screen_type s) a = true ->
                 int32_add (PasscodeBadTries g) 1 = PasscodeBadTries g + 1).
  { intros Hc. apply int32_add_1. specialize (Hmax Hc).
    unfold int32_min. lia. }
  clear Hmax.
  step_cases a s; destruct ty; cbn in Hadd |- *;
    try (destruct fo as [[|]|]; cbn);
    try (destruct nt as [|? ?]; destruct rt as [|? ?]);
    eval_handler; split_ifs; cbn;
    rewrite ?(Hadd eq_refl); lia.
Qed.

(** X7: As long as the [int32] count cannot overflow, the bad-try count never
    goes negative and only Check-mode clicks can raise it, by one each:
    after any sequence of actions it is at most the count before plus the
    number of clicks and Enter presses made on a Check screen, provided
    that sum still fits an [int32].  On a Create or Change screen it never
    rises. *)
Theorem bad_tries_bounded_by_check_clicks
    (l : list UserAction) (s : Screen) (g : World) :
  0 <= PasscodeBadTries g ->
  PasscodeBadTries g
    + Z.of_nat (length (filter (is_Check_click (screen_type s)) l))
    <= int32_max ->
  0 <= PasscodeBadTries (world_of (run_actions l s g))
    <= PasscodeBadTries g
       + Z.of_nat (length (filter (is_Check_click (screen_type s)) l)).
Proof.
  revert s g. induction l as [|a l IH]; intros s g H0 Hfit.
  - cbn. lia.
  - cbn [run_actions filter] in *. rewrite world_of_bind.
    assert (Hmax : is_Check_click (screen_type s) a = true ->
                   PasscodeBadTries g < int32_max).
    { intros Hc. rewrite Hc in Hfit. cbn [length] in Hfit. lia. }
    pose proof (step_bad_tries a s g H0 Hmax) as Hstep.
    specialize (IH (result_of (step a s g)) (world_of (step a s g))
                   (proj1 Hstep)).
    rewrite step_type in IH.
    destruct (is_Check_click (screen_type s) a); cbn [length] in *; lia.
Qed.

Lemma apply_log_label_ok (ty : EnterType) (newText reenterText : QString)
    (s : Screen) (g : World) :
  screen_type s = ty ->
  label_ok s ->
  label_ok (apply_log (trace_of (clicked ty newText reenterText g)) s).
Proof.
  intros Hty Hok. destruct s as [ty' nt rt fo sh tx]. cbn in Hty. subst ty'.
  unfold label_ok in *. cbn in Hok.
  click_cases ty newText reenterText; try exact Hok; reflexivity.
Qed.

(** X8: The error label stays in order whatever the user does: when it is
    shown it carries a text, and the text is one of the screen's mode,
    mismatch on a Create screen, mismatch or same-passcode on a Change
    screen, flood or wrong-passcode on a Check screen. *)
Theorem error_label_stays_in_order
    (l : list UserAction) (s : Screen) (g : World) :
  label_ok s ->
  let s' := result_of (run_actions l s g) in
  label_ok s'
  /\ (error_shown s' = true ->
      exists p, error_text s' = Some p
                /\ label_allowed (screen_type s) p = true).
Proof.
  intros Hok s'; subst s'.
  assert (Hinv : label_ok (result_of (run_actions l s g))
                 /\ screen_type (result_of (run_actions l s g))
                    = screen_type s).
  { destruct (run_actions_invariant
                (fun s' _ => label_ok s' /\ screen_type s' = screen_type s)
                (fun _ => True))
      with (l := l) (s := s) (g := g) as [Hres _]; auto.
    clear. intros a s' g' [Hok Hty]. rewrite step_type.
    split; [split; [|exact Hty]|exact I].
    destruct a as [f|t| | | |t last|]; unfold step, run_on;
      cbn [result_of fst snd].
    - unfold ret; cbn. destruct (has_field _ _); exact Hok.
    - destruct (focused s') as [f|]; unfold ret; cbn; [|exact Hok].
      destruct (has_field _ _); [|exact Hok].
      unfold edit_field. destruct (QString_eqb _ _); [exact Hok|].
      unfold label_ok in *.
      destruct (field_eqb _ _); destruct f; cbn;
        destruct (error_text s'); auto.
    - apply apply_log_label_ok; [reflexivity | exact Hok].
    - destruct (focused s') as [f|]; [|exact Hok].
      unfold submit.
      destruct (enterType_eqb (screen_type s') Check
                || field_eqb f reenterPasscode).
      + apply apply_log_label_ok; [reflexivity | exact Hok].
      + exact Hok.
    - unfold setInnerFocus_handler.
      destruct (isEmpty _); [exact Hok|].
      destruct (_ && _); exact Hok.
    - exact Hok.
    - unfold enter_autoCloseTimer.
      destruct (enterType_eqb _ _); [|exact Hok].
      rewrite timer_body_run.
      destruct (_ >=? _); exact Hok. }
  destruct Hinv as [Hok' Hty]. split; [exact Hok'|].
  intros Hshown. unfold label_ok in Hok'. rewrite Hty in Hok'.
  destruct (error_text (result_of (run_actions l s g))) as [p|].
  - exists p. split; [reflexivity | exact Hok'].
  - rewrite Hshown in Hok'. discriminate Hok'.
Qed.

(** X9: Enter walks through the form: with the cursor in the first field of a
    Create or Change screen the first Enter only moves the focus to the
    confirmation field, without a call or a change of the world, and the
    second Enter does what a click does; on a Check screen the first Enter
    already is the click. *)
Theorem enter_walks_to_the_click (s : Screen) (g : World) :
  focused s = Some newPasscode ->
  let click := clicked (screen_type s) (newPasscode_text s)
                 (reenterPasscode_text s) g in
  if enterType_eqb (screen_type s) Check
  then trace_of (run_actions [PressEnter] s g) = trace_of click
       /\ world_of (run_actions [PressEnter] s g) = world_of click
  else trace_of (run_actions [PressEnter] s g)
       = [Ui (setFocus reenterPasscode)]
       /\ world_of (run_actions [PressEnter] s g) = g
       /\ trace_of (run_actions [PressEnter; PressEnter] s g)
          = Ui (setFocus reenterPasscode) :: trace_of click
       /\ world_of (run_actions [PressEnter; PressEnter] s g)
          = world_of click.
Proof.
  intros Hfocus click; subst click.
  destruct s as [ty nt rt fo sh tx]. cbn in Hfocus. subst fo.
  cbn [screen_type newPasscode_text reenterPasscode_text].
  unfold run_actions.
  rewrite ?trace_of_bind, ?world_of_bind, ?result_of_bind.
  destruct ty; cbn [enterType_eqb];
    destruct nt as [|? ?]; destruct rt as [|? ?];
    unfold step, run_on; eval_handler; split_ifs;
    repeat split; reflexivity.
Qed.

(** X10: After a click that showed the error label, the label is visible and
    the focus is on the marked field; the next edit of that field, to any
    text other than the one it holds, hides the label, except after the
    same-passcode error of a Change screen: that one marks the first field
    while the label listens to the confirmation field, so the label
    stays. *)
Theorem edit_after_failed_click
    (s : Screen) (g : World) (t : QString) (f : Field) :
  let out := step ClickButton s g in
  let s1 := result_of out in
  let s2 := result_of (step (EditText t) s1 (world_of out)) in
  labels (trace_of out) <> [] ->
  hd_error (marked_fields (trace_of out)) = Some f ->
  QString_eqb t (field_text s f) = false ->
  error_shown s1 = true
  /\ focused s1 = Some f
  /\ field_text s2 f = t
  /\ error_shown s2
     = match labels (trace_of out) with
       | [lng_passcode_is_same] => true
       | _ => false
       end.
Proof.
  intros out s1 s2; subst out s1 s2.
  destruct s as [ty nt rt fo sh tx].
  unfold step at 2 3 4 5 6 7. unfold run_on.
  cbn [screen_type newPasscode_text reenterPasscode_text result_of
       trace_of world_of fst snd].
  intros Hlab Hmark Ht. revert Hlab Hmark.
  destruct ty; destruct nt as [|? ?]; destruct rt as [|? ?];
    eval_handler; split_ifs; intros Hlab Hmark;
    try (contradiction Hlab; reflexivity);
    injection Hmark as <-;
    unfold step, edit_field; cbn;
    cbn in Ht; rewrite ?Ht; cbn;
    repeat split; reflexivity.
Qed.

End ScreenProperties.

(** ** Properties of the divider *)

Lemma edge_bit_nonneg (e : Edge) : 0 <= edge_bit e.
Proof. destruct e; cbn; lia. Qed.

Lemma edge_flag_testbit (e : Edge) (n : Z) :
  Z.testbit (edge_flag e) n = (n =? edge_bit e).
Proof.
  unfold edge_flag. rewrite Z.shiftl_1_l.
  rewrite Z.pow2_bits_eqb by apply edge_bit_nonneg.
  apply Z.eqb_sym.
Qed.

Lemma skipEdge_testbit (e : Edge) (skip : bool) (d : Divider) (n : Z) :
  Z.testbit (_skipEdges (fst (skipEdge e skip d))) n
  = if n =? edge_bit e then skip else Z.testbit (_skipEdges d) n.
Proof.
  unfold skipEdge. cbn [fst _skipEdges].
  destruct (Z.ltb_spec n 0) as [Hneg|Hpos].
  - rewrite !Z.testbit_neg_r by exact Hneg.
    pose proof (edge_bit_nonneg e).
    destruct (Z.eqb_spec n (edge_bit e)); [lia | reflexivity].
  - destruct skip.
    + rewrite Z.lor_spec, edge_flag_testbit.
      destruct (n =? edge_bit e); [apply orb_true_r | apply orb_false_r].
    + rewrite Z.land_spec, Z.lnot_spec by exact Hpos.
      rewrite edge_flag_testbit.
      destruct (n =? edge_bit e); [apply andb_false_r | apply andb_true_r].
Qed.

Lemma land_flag_zero (flags : Z) (e : Edge) :
  (Z.land flags (edge_flag e) =? 0) = negb (Z.testbit flags (edge_bit e)).
Proof.
  destruct (Z.testbit flags (edge_bit e)) eqn:Hbit; cbn.
  - apply Z.eqb_neq. intros H0.
    assert (Hb : Z.testbit (Z.land flags (edge_flag e)) (edge_bit e) = true).
    { now rewrite Z.land_spec, edge_flag_testbit, Z.eqb_refl, Hbit. }
    rewrite H0, Z.bits_0 in Hb. discriminate Hb.
  - apply Z.eqb_eq. apply Z.bits_inj'. intros n Hn.
    rewrite Z.land_spec, edge_flag_testbit, Z.bits_0.
    destruct (Z.eqb_spec n (edge_bit e)) as [->|_];
      [now rewrite Hbit | apply andb_false_r].
Qed.

(** X11: [skipEdge] writes the bit of its edge and no other: afterwards the
    edge is skipped exactly if that was asked, and every other bit of the
    flags is what it was. *)
Theorem skipEdge_writes_one_bit
    (e : Edge) (skip : bool) (d : Divider) (n : Z) :
  Z.testbit (_skipEdges (fst (skipEdge e skip d))) (edge_bit e) = skip
  /\ Z.testbit (_skipEdges (fst (skipEdge e skip d))) n
     = if n =? edge_bit e then skip else Z.testbit (_skipEdges d) n.
Proof.
  split; [|apply skipEdge_testbit].
  now rewrite skipEdge_testbit, Z.eqb_refl.
Qed.

Lemma skipEdge_same (e : Edge) (skip : bool) (d : Divider) :
  Z.testbit (_skipEdges d) (edge_bit e) = skip ->
  _skipEdges (fst (skipEdge e skip d)) = _skipEdges d.
Proof.
  intros Hbit. apply Z.bits_inj'. intros n _.
  rewrite skipEdge_testbit.
  destruct (Z.eqb_spec n (edge_bit e)) as [->|_]; [now rewrite Hbit|reflexivity].
Qed.

Lemma skipEdge_updated (e : Edge) (skip : bool) (d : Divider) :
  snd (skipEdge e skip d)
  = xorb (Z.testbit (_skipEdges d) (edge_bit e)) skip.
Proof.
  change (snd (skipEdge e skip d))
    with (negb (_skipEdges d =? _skipEdges (fst (skipEdge e skip d)))).
  destruct (Bool.bool_dec (Z.testbit (_skipEdges d) (edge_bit e)) skip)
    as [Heq|Hne].
  - rewrite (skipEdge_same e skip d Heq), Z.eqb_refl, Heq.
    now rewrite xorb_nilpotent.
  - replace (xorb (Z.testbit (_skipEdges d) (edge_bit e)) skip) with true
      by (destruct (Z.testbit (_skipEdges d) (edge_bit e)), skip;
          try reflexivity; contradiction Hne; reflexivity).
    apply negb_true_iff, Z.eqb_neq. intros Heq. apply Hne.
    rewrite Heq at 1. now rewrite skipEdge_testbit, Z.eqb_refl.
Qed.

(** X12: [skipEdge] repaints only on a change: [update()] is called exactly
    when the edge was not already in the requested state, so asking twice
    for the same thing repaints at most once and leaves the same flags. *)
Theorem skipEdge_updates_iff_changed (e : Edge) (skip : bool) (d : Divider) :
  snd (skipEdge e skip d)
  = xorb (Z.testbit (_skipEdges d) (edge_bit e)) skip
  /\ snd (skipEdge e skip (fst (skipEdge e skip d))) = false
  /\ fst (skipEdge e skip (fst (skipEdge e skip d))) = fst (skipEdge e skip d).
Proof.
  split; [apply skipEdge_updated|].
  assert (Hbit : Z.testbit (_skipEdges (fst (skipEdge e skip d))) (edge_bit e)
                 = skip)
    by now rewrite skipEdge_testbit, Z.eqb_refl.
  split.
  - rewrite skipEdge_updated, Hbit. apply xorb_nilpotent.
  - pose proof (skipEdge_same e skip _ Hbit) as Hsame.
    destruct (fst (skipEdge e skip d)) as [flags] eqn:Hd.
    unfold skipEdge in Hsame |- *. cbn [fst _skipEdges] in Hsame |- *.
    now rewrite Hsame.
Qed.

Lemma skipEdges_all_bit (calls : list (Edge * bool)) (d : Divider) (e : Edge) :
  Z.testbit (_skipEdges (fst (skipEdges_all calls d))) (edge_bit e)
  = match last_request e calls with
    | Some b => b
    | None => Z.testbit (_skipEdges d) (edge_bit e)
    end.
Proof.
  revert d. induction calls as [|[e' skip] rest IH]; intros d; [reflexivity|].
  cbn [skipEdges_all last_request].
  destruct (skipEdge e' skip d) as [d1 updated] eqn:Hstep.
  specialize (IH d1).
  destruct (skipEdges_all rest d1) as [d2 n]. cbn [fst] in IH |- *.
  rewrite IH. destruct (last_request e rest); [reflexivity|].
  replace d1 with (fst (skipEdge e' skip d)) by now rewrite Hstep.
  rewrite skipEdge_testbit. rewrite (Z.eqb_sym (edge_bit e)).
  destruct (edge_bit e' =? edge_bit e); reflexivity.
Qed.

Lemma skipEdges_all_count (calls : list (Edge * bool)) (d : Divider) :
  (snd (skipEdges_all calls d) <= length calls)%nat.
Proof.
  revert d. induction calls as [|[e' skip] rest IH]; intros d; [cbn; lia|].
  cbn [skipEdges_all length].
  destruct (skipEdge e' skip d) as [d1 updated].
  specialize (IH d1). destruct (skipEdges_all rest d1) as [d2 n].
  cbn [snd] in *. destruct updated; lia.
Qed.

(** X13: After any series of [skipEdge] calls each edge is in the state of the
    last request made for it, or in its old state if none was made; the
    divider repaints at most once per call. *)
Theorem skipEdges_last_request_wins
    (calls : list (Edge * bool)) (d : Divider) (e : Edge) :
  Z.testbit (_skipEdges (fst (skipEdges_all calls d))) (edge_bit e)
  = match last_request e calls with
    | Some b => b
    | None => Z.testbit (_skipEdges d) (edge_bit e)
    end
  /\ (snd (skipEdges_all calls d) <= length calls)%nat.
Proof.
  split; [apply skipEdges_all_bit | apply skipEdges_all_count].
Qed.

(** X14: What a divider paints after any series of [skipEdge] calls on a new
    one: always the background first, then the top border unless the last
    request for the top edge was to skip it, then the bottom border unless
    the last request for the bottom edge was to skip it.  Requests for the
    left and right edges change nothing that is painted. *)
Theorem paintEvent_after_skipEdges (calls : list (Edge * bool)) :
  paintEvent (fst (skipEdges_all calls (mkDivider 0)))
  = [fillRect]
    ++ match last_request TopEdge calls with
       | Some true => []
       | _ => [paintTop]
       end
    ++ match last_request BottomEdge calls with
       | Some true => []
       | _ => [paintBottom]
       end.
Proof.
  unfold paintEvent. rewrite !land_flag_zero, !skipEdges_all_bit.
  cbn [_skipEdges]. rewrite !Z.bits_0.
  destruct (last_request TopEdge calls) as [[|]|];
    destruct (last_request BottomEdge calls) as [[|]|]; reflexivity.
Qed.

(** X15: As long as the [int] sums of the geometry do not overflow, the
    filler divider takes exactly the room between the section and the
    pinned content: it starts where the section ends, is as wide as the
    section, and ends where the pinned content begins, and it counts as
    shown exactly when that room is not empty.  In any case the two
    dividers meet without a border between them: the filler never paints
    its top border, and the divider behind the about text paints its
    bottom border exactly when the filler is not shown, its top border as
    before. *)
Theorem filler_and_about_divider
    (r parentRect bottomRect : QRect) (about : Divider) :
  let f := filler_geometry r parentRect bottomRect in
  let about' := fst (about_divider_follow r parentRect bottomRect about) in
  (in_int32 (rect_y r + rect_height r) ->
   in_int32 (rect_height parentRect - (rect_y r + rect_height r)) ->
   in_int32 (rect_height parentRect - (rect_y r + rect_height r)
             - rect_height bottomRect) ->
   (rect_x f = 0
    /\ rect_y f = rect_y r + rect_height r
    /\ rect_width f = rect_width r
    /\ rect_y f + rect_height f + rect_height bottomRect
       = rect_height parentRect)
   /\ isBottomFillerShown f
      = (rect_y r + rect_height r + rect_height bottomRect
         <? rect_height parentRect))
  /\ paintEvent filler_divider = [fillRect; paintBottom]
  /\ paintEvent about'
     = [fillRect]
       ++ (if Z.testbit (_skipEdges about) (edge_bit TopEdge)
           then [] else [paintTop])
       ++ (if isBottomFillerShown f then [] else [paintBottom]).
Proof.
  intros f about'; subst f about'.
  split.
  { intros H1 H2 H3.
    unfold filler_geometry, isBottomFillerShown, int32_add, int32_sub.
    cbn [rect_x rect_y rect_width rect_height].
    rewrite (int32_wrap_small _ H1), (int32_wrap_small _ H2),
      (int32_wrap_small _ H3).
    split; [repeat split; lia|].
    rewrite Z.gtb_ltb.
    destruct (Z.ltb_spec 0
                (rect_height parentRect - (rect_y r + rect_height r)
                 - rect_height bottomRect));
      destruct (Z.ltb_spec (rect_y r + rect_height r + rect_height bottomRect)
                  (rect_height parentRect)); try reflexivity; lia. }
  split; [reflexivity|].
  unfold about_divider_follow, paintEvent.
  rewrite !land_flag_zero, !skipEdge_testbit. cbn [edge_bit Z.eqb].
  destruct (Z.testbit (_skipEdges about) 0);
    destruct (isBottomFillerShown _); reflexivity.
Qed.

(** ** Properties of the auto-lock label *)

Lemma autolock_quot_60 (autolock : Z) :
  Z.quot autolock 60 = autolock_hours autolock * 60 + autolock_minutes autolock.
Proof.
  unfold autolock_minutes, autolock_hours.
  Z.quot_rem_to_equations. lia.
Qed.

Lemma autolock_hours_of_quot (autolock : Z) :
  autolock_hours autolock = Z.quot (Z.quot autolock 60) 60.
Proof.
  unfold autolock_hours. Z.quot_rem_to_equations. lia.
Qed.

(** X16: The split into hours and minutes loses the seconds and nothing else:
    hours, minutes and the remainder of the value by 60 add up to the
    value, the minutes stay below 60 in magnitude, and hours and minutes
    never have the opposite sign of the value. *)
Theorem autolock_split_loses_only_seconds (autolock : Z) :
  autolock_hours autolock * 3600 + autolock_minutes autolock * 60
    + Z.rem autolock 60 = autolock
  /\ -60 < autolock_minutes autolock < 60
  /\ -60 < Z.rem autolock 60 < 60
  /\ 0 <= autolock * autolock_hours autolock
  /\ 0 <= autolock * autolock_minutes autolock.
Proof.
  unfold autolock_minutes, autolock_hours.
  set (h := Z.quot autolock 3600).
  set (m := Z.quot (autolock - h * 3600) 60).
  assert (Hsign : (autolock < 0 -> h <= 0 /\ m <= 0)
                  /\ (0 <= autolock -> 0 <= h /\ 0 <= m))
    by (subst h m; Z.quot_rem_to_equations; lia).
  repeat split; try (subst h m; Z.quot_rem_to_equations; lia);
    (destruct (Z_lt_le_dec autolock 0) as [Hneg|Hpos];
     [ destruct (proj1 Hsign Hneg) | destruct (proj2 Hsign Hpos) ]); nia.
Qed.

Lemma autolockLabel_of_inj (a b : Z) :
  autolockLabel_of a = autolockLabel_of b ->
  autolock_hours a = autolock_hours b
  /\ autolock_minutes a = autolock_minutes b.
Proof.
  unfold autolockLabel_of, nonzero.
  destruct (Z.eqb_spec (autolock_hours a) 0) as [Ha|Ha];
    destruct (Z.eqb_spec (autolock_minutes a) 0) as [Ma|Ma];
    destruct (Z.eqb_spec (autolock_hours b) 0) as [Hb|Hb];
    destruct (Z.eqb_spec (autolock_minutes b) 0) as [Mb|Mb];
    cbn; intros H; inversion H; split; congruence.
Qed.

(** X17: The label tells the auto-lock value up to whole minutes: two values
    get the same label exactly when they agree after dropping the
    seconds. *)
Theorem autolock_label_up_to_minutes (a b : Z) :
  autolockLabel_of a = autolockLabel_of b <-> Z.quot a 60 = Z.quot b 60.
Proof.
  split.
  - intros H. apply autolockLabel_of_inj in H as [Hh Hm].
    now rewrite !autolock_quot_60, Hh, Hm.
  - intros H.
    assert (Hh : autolock_hours a = autolock_hours b)
      by now rewrite !autolock_hours_of_quot, H.
    assert (Hm : autolock_minutes a = autolock_minutes b).
    { pose proof (autolock_quot_60 a). pose proof (autolock_quot_60 b). lia. }
    unfold autolockLabel_of. now rewrite Hh, Hm.
Qed.

(** ** Further runs in the sample world *)

(** Check mode, the right passcode "a" after two bad tries. *)
Lemma navigating_click_witness :
  navigations (trace_of (clicked (E := SampleExternals) Check [97%N] []
                           (sample_world 2 0 1000))) <> []
  /\ PasscodeBadTries
       (world_of (clicked (E := SampleExternals) Check [97%N] []
                    (sample_world 2 0 1000))) = 0.
Proof.
  assert (H : navigations
                (trace_of (clicked (E := SampleExternals) Check [97%N] []
                             (sample_world 2 0 1000))) <> [])
    by discriminate.
  split; [exact H|].
  exact (navigating_click_resets_bad_tries (E := SampleExternals)
           Check [97%N] [] (sample_world 2 0 1000) H).
Defined.

(** A Check screen: the user tries to reach the missing field, types "b"
    into the only one, presses Enter, and clicks. *)
Lemma check_screen_witness :
  screen_type (initial_screen Check) = Check
  /\ focus_ok (initial_screen Check) = true
  /\ existsb (touches_field reenterPasscode)
       (trace_of
          (run_actions (E := SampleExternals)
             [FocusField reenterPasscode; FocusField newPasscode;
              EditText [98%N]; PressEnter; InnerFocus; ClickButton]
             (initial_screen Check) (sample_world 0 0 1000))) = false.
Proof.
  split; [reflexivity|]. split; [reflexivity|].
  exact (proj1 (check_screen_never_touches_reenterPasscode
                  (E := SampleExternals)
                  [FocusField reenterPasscode; FocusField newPasscode;
                   EditText [98%N]; PressEnter; InnerFocus; ClickButton]
                  (initial_screen Check) (sample_world 0 0 1000)
                  eq_refl eq_refl)).
Defined.

(** Two wrong tries on a Check screen: the count goes from 0 to 2. *)
Lemma bad_tries_witness :
  0 <= PasscodeBadTries (sample_world 0 0 1000)
  /\ 0 + 2 <= int32_max
  /\ 0 <= PasscodeBadTries
            (world_of
               (run_actions (E := SampleExternals)
                  [FocusField newPasscode; EditText [98%N]; ClickButton;
                   PressEnter]
                  (initial_screen Check) (sample_world 0 0 1000)))
       <= 2.
Proof.
  assert (Hfit : 0 + 2 <= int32_max) by discriminate.
  split; [apply Z.le_refl|]. split; [exact Hfit|].
  exact (bad_tries_bounded_by_check_clicks (E := SampleExternals)
           [FocusField newPasscode; EditText [98%N]; ClickButton; PressEnter]
           (initial_screen Check) (sample_world 0 0 1000) (Z.le_refl 0) Hfit).
Defined.

(** A Change screen holding the current passcode "a" twice, clicked. *)
Lemma error_label_witness :
  label_ok (mkScreen Change [97%N] [97%N] None false None)
  /\ label_ok
       (result_of
          (run_actions (E := SampleExternals) [ClickButton]
             (mkScreen Change [97%N] [97%N] None false None)
             (sample_world 0 0 0))).
Proof.
  split; [reflexivity|].
  exact (proj1 (error_label_stays_in_order (E := SampleExternals)
                  [ClickButton]
                  (mkScreen Change [97%N] [97%N] None false None)
                  (sample_world 0 0 0) eq_refl)).
Defined.

(** A Create screen holding "a" twice, the cursor in the first field. *)
Lemma enter_walks_witness :
  focused (mkScreen Create [97%N] [97%N] (Some newPasscode) false None)
  = Some newPasscode
  /\ trace_of
       (run_actions (E := SampleExternals) [PressEnter; PressEnter]
          (mkScreen Create [97%N] [97%N] (Some newPasscode) false None)
          (sample_world 0 0 0))
     = Ui (setFocus reenterPasscode)
       :: trace_of (clicked (E := SampleExternals) Create [97%N] [97%N]
                      (sample_world 0 0 0)).
Proof.
  split; [reflexivity|].
  exact (proj1 (proj2 (proj2
    (enter_walks_to_the_click (E := SampleExternals)
       (mkScreen Create [97%N] [97%N] (Some newPasscode) false None)
       (sample_world 0 0 0) eq_refl)))).
Defined.

(** A Create screen holding "a" and "b": after the click the confirmation
    is retyped to "a", the text of the first field, and the label hides. *)
Lemma edit_after_failed_click_witness :
  labels (trace_of (step (E := SampleExternals) ClickButton
                      (mkScreen Create [97%N] [98%N] None false None)
                      (sample_world 0 0 0))) <> []
  /\ hd_error
       (marked_fields
          (trace_of (step (E := SampleExternals) ClickButton
                       (mkScreen Create [97%N] [98%N] None false None)
                       (sample_world 0 0 0))))
     = Some reenterPasscode
  /\ QString_eqb [97%N] [98%N] = false
  /\ error_shown
       (result_of
          (step (E := SampleExternals) (EditText [97%N])
             (result_of (step (E := SampleExternals) ClickButton
                           (mkScreen Create [97%N] [98%N] None false None)
                           (sample_world 0 0 0)))
             (world_of (step (E := SampleExternals) ClickButton
                          (mkScreen Create [97%N] [98%N] None false None)
                          (sample_world 0 0 0)))))
     = false.
Proof.
  assert (H : labels (trace_of (step (E := SampleExternals) ClickButton
                      (mkScreen Create [97%N] [98%N] None false None)
                      (sample_world 0 0 0))) <> [])
    by discriminate.
  split; [exact H|]. split; [reflexivity|]. split; [reflexivity|].
  exact (proj2 (proj2 (proj2
    (edit_after_failed_click (E := SampleExternals)
       (mkScreen Create [97%N] [98%N] None false None)
       (sample_world 0 0 0) [97%N] reenterPasscode H eq_refl eq_refl)))).
Defined.

(** A minute and a half and a second short of two minutes: one label. *)
Lemma autolock_label_witness :
  Z.quot 90 60 = Z.quot 119 60
  /\ autolockLabel_of 90 = autolockLabel_of 119.
Proof.
  split; [reflexivity|].
  exact (proj2 (autolock_label_up_to_minutes 90 119) eq_refl).
Defined.

(** A section of height 300 in a parent of height 500 over a pinned
    content of height 60: the filler gets the 140 in between. *)
Lemma filler_witness :
  in_int32 (0 + 300)
  /\ in_int32 (500 - (0 + 300))
  /\ in_int32 (500 - (0 + 300) - 60)
  /\ filler_geometry (mkQRect 0 0 400 300) (mkQRect 0 0 400 500)
       (mkQRect 0 440 400 60)
     = mkQRect 0 300 400 140
  /\ isBottomFillerShown
       (filler_geometry (mkQRect 0 0 400 300) (mkQRect 0 0 400 500)
          (mkQRect 0 440 400 60))
     = true.
Proof.
  assert (H1 : in_int32 (0 + 300)) by (split; discriminate).
  assert (H2 : in_int32 (500 - (0 + 300))) by (split; discriminate).
  assert (H3 : in_int32 (500 - (0 + 300) - 60)) by (split; discriminate).
  split; [exact H1|]. split; [exact H2|]. split; [exact H3|].
  split; [reflexivity|].
  exact (proj2 (proj1 (filler_and_about_divider
                         (mkQRect 0 0 400 300) (mkQRect 0 0 400 500)
                         (mkQRect 0 440 400 60) (mkDivider 0)) H1 H2 H3)).
Defined.
